(** * Juno: L1-fact resolution and state-commitment engine

    A shallow embedding of the StarkNet synchronizer of the juno node
    (package [starknet], two revisions of which are in the sources, and the
    tests of package [pedersen]), with the properties of its specification
    stated and settled against it.

    Conventions of the embedding:
    - a Go [*big.Int] is a [Z]; the arithmetic of the hash runs on
      [bigZ] (machine-word trees, as [math/big] has them) and is read back
      to [Z];
    - a Go [int64]/[uint64] is a [Z] with the wrap-around written out;
    - a Go [string] is a [string] (a sequence of eight-bit characters) and
      a [[]byte] is a [list byte];
    - a Go [(T, error)] result is a [Res T]; a function that can panic
      returns an [Outcome];
    - a Go [map] is a stdpp [gmap]. *)

From Stdlib Require Import ZArith Lia List Bool Ascii String.
From Stdlib Require DecimalString.
From Bignums Require Import BigZ.
From stdpp Require Import base option list gmap strings.
Import ListNotations.

#[local] Open Scope Z_scope.

(* ===================================================================== *)
(** * Go values shared by the packages                                    *)
(* ===================================================================== *)

Module Go.

(** A Go [error] value, identified by its message. *)
Definition error : Type := string.

(** The result of a Go function of type [(T, error)]: a non-nil error
    makes the value meaningless, so the value is kept only with [nil]. *)
Inductive Res (A : Type) : Type :=
| Ok (a : A)
| Err (e : error).
Arguments Ok {A} a.
Arguments Err {A} e.

Definition bind {A B : Type} (r : Res A) (k : A -> Res B) : Res B :=
  match r with
  | Ok a => k a
  | Err e => Err e
  end.

(** Two's-complement conversions: [uint64(x)] and [int64(x)]. *)
Definition uint64 (x : Z) : Z := x mod 2 ^ 64.
Definition int64 (x : Z) : Z := (x + 2 ^ 63) mod 2 ^ 64 - 2 ^ 63.

Definition is_int64 (x : Z) : Prop := - 2 ^ 63 <= x < 2 ^ 63.

End Go.
Import Go.

(* ===================================================================== *)
(** * Package pedersen                                                    *)
(* ===================================================================== *)

Module pedersen.

#[local] Open Scope bigZ_scope.

(** Modelled from the spec: the body of [pedersen.Digest] is not part of
    the sources (only its tests and its caller [contractState] are).  The
    specification asks that it "reproduce a published reference
    implementation bit-for-bit"; the definitions below follow that
    reference, the Pedersen hash of the STARK curve
    [y^2 = x^3 + ALPHA x + BETA] over the field of [FIELD_PRIME]
    elements: starting from a shift point, the point of index
    [2 + 252 i + j] of a fixed table is added for every set bit [j] of
    the [i]-th input, and the digest is the abscissa of the sum. *)
Definition FIELD_PRIME : Z :=
  0x800000000000011000000000000000000000000000000000000000000000001%Z.
Definition ALPHA : Z := 1%Z.
Definition BETA : Z :=
  0x6f21413efbe40de150e596d72f7a8c5609ad26c15c915c1f4cdfcb99cee9e89%Z.
Definition N_ELEMENT_BITS_HASH : nat := 252.

Definition ECPoint : Type := (bigZ * bigZ)%type.

Definition mkPoint (x y : Z) : ECPoint := (BigZ.of_Z x, BigZ.of_Z y).

Definition prime : bigZ := BigZ.of_Z FIELD_PRIME.

(** Modelled from the spec: the five generating points of the reference's
    table (the shift point, the curve generator and [P1 .. P4]). *)
Definition SHIFT_POINT : ECPoint :=
  mkPoint 0x49ee3eba8c1600700ee1b87eb599f16716b0b1022947733551fde4050ca6804
          0x3ca0cfe4b3bc6ddf346d49d06ea0ed34e621062c0e056c1d0405d266e10268a.
Definition EC_GEN : ECPoint :=
  mkPoint 0x1ef15c18599971b7beced415a40f0c7deacfd9b0d1819e03d723d8bc943cfca
          0x5668060aa49730b7be4801df46ec62de53ecd11abe43a32873000c36e8dc1f.
Definition P1 : ECPoint :=
  mkPoint 0x234287dcbaffe7f969c748655fca9e58fa8120b6d56eb0c1080d17957ebe47b
          0x3b056f100f96fb21e889527d41f4e39940135dd7a6c94cc6ed0268ee89e5615.
Definition P2 : ECPoint :=
  mkPoint 0x4fa56f376c83db33f9dab2656558f3399099ec1de5e3018b7a6932dba8aa378
          0x3fa0984c931c9e38113e0c0e47e4401562761f92a7a23b45168f4e80ff5b54d.
Definition P3 : ECPoint :=
  mkPoint 0x4ba4cc166be8dec764910f75b45f74b40c690c74709e90f3aa372f0bd2d6997
          0x40301cf5c1751f4b971e46c4ede85fcac5c59a5ce5ae7c48151f27b24b219c.
Definition P4 : ECPoint :=
  mkPoint 0x54302dcb0e6cc1c6e44cca8f61a63bb2ca65048d53fb325d36ff12c49a58202
          0x1b77b3e37d13504b348046268d8ae25ce98ad783c25561a879dcc77e99c2426.

(** Whether a point satisfies the equation of the curve. *)
Definition on_curve (pt : ECPoint) : bool :=
  let '(x, y) := pt in
  (y * y) mod prime
  =? (x * x * x + BigZ.of_Z ALPHA * x + BigZ.of_Z BETA) mod prime.

(** Extended Euclid on non-negative arguments: [(x, y, g)] with
    [x * a + y * b = g].  The fuel bounds the number of divisions, which
    for operands below [2^252] stays under 400. *)
Fixpoint igcdex_loop (fuel : nat) (a b x y r s : bigZ) : bigZ * bigZ * bigZ :=
  match fuel with
  | O => (x, y, a)
  | S fuel' =>
      if b =? 0 then (x, y, a)
      else
        let (q, c) := BigZ.div_eucl a b in
        igcdex_loop fuel' b c r s (x - q * r) (y - q * s)
  end.

Definition igcdex (a b : bigZ) : bigZ * bigZ * bigZ :=
  let '(x, y, g) := igcdex_loop 1024 (BigZ.abs a) (BigZ.abs b) 1 0 0 1 in
  (x * BigZ.sgn a, y * BigZ.sgn b, g).

(** [n / m] in the field: [None] when [m] has no inverse. *)
Definition div_mod (n m p : bigZ) : option bigZ :=
  let '(a, _, c) := igcdex m p in
  if c =? 1 then Some ((n * a) mod p) else None.

(** Chord addition of two points of distinct abscissas; the reference
    refuses the other cases. *)
Definition ec_add (pt1 pt2 : ECPoint) : option ECPoint :=
  let '(x1, y1) := pt1 in
  let '(x2, y2) := pt2 in
  if (x1 - x2) mod prime =? 0 then None
  else
    m ← div_mod (y1 - y2) (x1 - x2) prime;
    let x := (m * m - x1 - x2) mod prime in
    let y := (m * (x1 - x) - y1) mod prime in
    Some (x, y).

(** Tangent doubling, used to build the table. *)
Definition ec_double (pt : ECPoint) : option ECPoint :=
  let '(x1, y1) := pt in
  m ← div_mod (3 * x1 * x1 + BigZ.of_Z ALPHA) (2 * y1) prime;
  let x := (m * m - 2 * x1) mod prime in
  let y := (m * (x1 - x) - y1) mod prime in
  Some (x, y).

(** [pt, 2 pt, 4 pt, ...], [n] entries. *)
Fixpoint doublings (n : nat) (pt : ECPoint) : list ECPoint :=
  match n with
  | O => []
  | S n' =>
      pt :: match ec_double pt with
            | Some pt' => doublings n' pt'
            | None => []
            end
  end.

(** The table of the reference, 2 + 2 * 252 points. *)
Definition gen_constant_points : list ECPoint :=
  [SHIFT_POINT; EC_GEN]
    ++ doublings 248 P1 ++ doublings 4 P2
    ++ doublings 248 P3 ++ doublings 4 P4.

Definition CONSTANT_POINTS : list ECPoint :=
  Eval vm_compute in gen_constant_points.

Definition point_list (i : nat) : list ECPoint :=
  take N_ELEMENT_BITS_HASH (drop (2 + i * N_ELEMENT_BITS_HASH) CONSTANT_POINTS).

Definition ErrRange : error := "pedersen: input is not a field element".
Definition ErrUnhashable : error := "pedersen: unhashable input".

(** The inner loop over the bits of one input: [x & 1], [x >>= 1]. *)
Fixpoint hash_element (pts : list ECPoint) (x : bigZ) (point : ECPoint)
  : Res (ECPoint * bigZ) :=
  match pts with
  | [] => Ok (point, x)
  | pt :: pts' =>
      if fst point =? fst pt then Err ErrUnhashable
      else
        let next := if BigZ.odd x then ec_add point pt else Some point in
        match next with
        | None => Err ErrUnhashable
        | Some point' => hash_element pts' (BigZ.div2 x) point'
        end
  end.

Fixpoint hash_elements (i : nat) (elements : list bigZ) (point : ECPoint)
  : Res ECPoint :=
  match elements with
  | [] => Ok point
  | x :: rest =>
      if negb ((0 <=? x) && (x <? prime)) then Err ErrRange
      else
        Go.bind (hash_element (point_list i) x point) (fun '(point', x') =>
        if negb (x' =? 0) then Err ErrRange
        else hash_elements (S i) rest point')
  end.

(** Modelled from the spec: [pedersen.Digest(a, b)], missing from the
    sources.  The digest is the abscissa of
    [SHIFT_POINT + a_lo P1 + a_hi P2 + b_lo P3 + b_hi P4], where [x_lo] is
    the low 248 bits of [x] and [x_hi] the 4 bits above; the result is an
    error when an input is not a field element or the reference refuses to
    add two points. *)
Definition Digest (a b : Z) : Res Z :=
  Go.bind (hash_elements 0 [BigZ.of_Z a; BigZ.of_Z b] SHIFT_POINT)
          (fun point => Ok (BigZ.to_Z (fst point))).

(** Modelled from the spec: the loop of [pedersen.ArrayDigest], missing
    from the sources.  "Chains Digest pairwise over the sequence":
    [h(... h(h(0, x1), x2) ..., xn)]. *)
Definition chain (data : list Z) : Res Z :=
  fold_left (fun digest item => Go.bind digest (fun d => Digest d item))
            data (Ok 0%Z).

(** Modelled from the spec: [pedersen.ArrayDigest(data...)], missing from
    the sources.  The chain "folds in the sequence length as a final
    input, per the reference algorithm": [h(chain, n)]. *)
Definition ArrayDigest (data : list Z) : Res Z :=
  Go.bind (chain data) (fun digest => Digest digest (Z.of_nat (length data))).

End pedersen.

(* ===================================================================== *)
(** * Bytes, strings and runes                                            *)
(* ===================================================================== *)

Module Bytes.

(** A Go [byte] is an [ascii] (eight bits); [code] and [chr] convert
    to and from its value, [chr] truncating as the conversion [byte(x)]
    does. *)
Definition byte : Type := ascii.
Definition code (b : byte) : Z := Z.of_N (N_of_ascii b).
Definition chr (x : Z) : byte := ascii_of_N (Z.to_N (x mod 256)).

Definition bytes_of_string (s : string) : list byte := list_ascii_of_string s.
Definition string_of_bytes (l : list byte) : string := string_of_list_ascii l.

(** [binary.BigEndian.PutUint64(b, v)] on a fresh 8-byte slice. *)
Definition PutUint64 (v : Z) : list byte :=
  [ chr (Z.shiftr v 56); chr (Z.shiftr v 48); chr (Z.shiftr v 40);
    chr (Z.shiftr v 32); chr (Z.shiftr v 24); chr (Z.shiftr v 16);
    chr (Z.shiftr v 8); chr v ].

(** [binary.BigEndian.Uint64(b)] on the first eight bytes of [b]. *)
Definition Uint64 (b : list byte) : Z :=
  match b with
  | b0 :: b1 :: b2 :: b3 :: b4 :: b5 :: b6 :: b7 :: _ =>
      Z.lor (code b7)
        (Z.lor (Z.shiftl (code b6) 8)
           (Z.lor (Z.shiftl (code b5) 16)
              (Z.lor (Z.shiftl (code b4) 24)
                 (Z.lor (Z.shiftl (code b3) 32)
                    (Z.lor (Z.shiftl (code b2) 40)
                       (Z.lor (Z.shiftl (code b1) 48)
                          (Z.shiftl (code b0) 56)))))))
  | _ => 0
  end.

Definition EOF : error := "EOF".
Definition ErrUnexpectedEOF : error := "unexpected EOF".

(** [binary.Read(bytes.NewBuffer(b), binary.BigEndian, &ret)] with
    [ret] a [uint64]: eight bytes are read in full or the read fails. *)
Definition ReadUint64 (b : list byte) : Res Z :=
  match b with
  | [] => Err EOF
  | _ => if (length b <? 8)%nat then Err ErrUnexpectedEOF else Ok (Uint64 b)
  end.

End Bytes.
Import Bytes.

Module utf8.

(** The constants of Go's [runtime/utf8.go]. *)
Definition runeError : Z := 0xFFFD.
Definition maxRune : Z := 0x10FFFF.
Definition surrogateMin : Z := 0xD800.
Definition surrogateMax : Z := 0xDFFF.
Definition t2 : Z := 0xC0.
Definition t3 : Z := 0xE0.
Definition t4 : Z := 0xF0.
Definition t5 : Z := 0xF8.
Definition tx : Z := 0x80.
Definition maskx : Z := 0x3F.
Definition mask2 : Z := 0x1F.
Definition mask3 : Z := 0x0F.
Definition mask4 : Z := 0x07.
Definition rune1Max : Z := 0x7F.
Definition rune2Max : Z := 0x7FF.
Definition rune3Max : Z := 0xFFFF.
Definition locb : Z := 0x80.
Definition hicb : Z := 0xBF.

Definition cont (b : byte) : bool := (locb <=? code b) && (code b <=? hicb).

(** The rune at the head of a non-empty [s] and the number of bytes it
    takes, as a [range] clause over a string decodes it: a byte below
    0x80 is itself, a longer well-formed sequence is decoded, and
    anything else is [runeError] of width 1. *)
Definition decoderune (s : list byte) : Z * nat :=
  match s with
  | [] => (runeError, 1%nat)
  | s0 :: rest =>
      let c0 := code s0 in
      if c0 <? 0x80 then (c0, 1%nat)
      else if (t2 <=? c0) && (c0 <? t3) then
        match rest with
        | s1 :: _ =>
            let r := Z.lor (Z.shiftl (Z.land c0 mask2) 6) (Z.land (code s1) maskx) in
            if cont s1 && (rune1Max <? r) then (r, 2%nat) else (runeError, 1%nat)
        | _ => (runeError, 1%nat)
        end
      else if (t3 <=? c0) && (c0 <? t4) then
        match rest with
        | s1 :: s2 :: _ =>
            let r := Z.lor (Z.lor (Z.shiftl (Z.land c0 mask3) 12)
                                  (Z.shiftl (Z.land (code s1) maskx) 6))
                           (Z.land (code s2) maskx) in
            if cont s1 && cont s2 && (rune2Max <? r)
               && negb ((surrogateMin <=? r) && (r <=? surrogateMax))
            then (r, 3%nat) else (runeError, 1%nat)
        | _ => (runeError, 1%nat)
        end
      else if (t4 <=? c0) && (c0 <? t5) then
        match rest with
        | s1 :: s2 :: s3 :: _ =>
            let r := Z.lor (Z.lor (Z.lor (Z.shiftl (Z.land c0 mask4) 18)
                                         (Z.shiftl (Z.land (code s1) maskx) 12))
                                  (Z.shiftl (Z.land (code s2) maskx) 6))
                           (Z.land (code s3) maskx) in
            if cont s1 && cont s2 && cont s3 && (rune3Max <? r) && (r <=? maxRune)
            then (r, 4%nat) else (runeError, 1%nat)
        | _ => (runeError, 1%nat)
        end
      else (runeError, 1%nat)
  end.

(** [string(r)] for a rune [r] (an [int32]): its UTF-8 encoding, that
    of [runeError] when [r] is no Unicode scalar value. *)
Definition encoderune (r : Z) : list byte :=
  let i := r mod 2 ^ 32 in
  let three (r : Z) :=
    [ chr (Z.lor t3 (Z.shiftr r 12));
      chr (Z.lor tx (Z.land (Z.shiftr r 6) maskx));
      chr (Z.lor tx (Z.land r maskx)) ] in
  if i <=? rune1Max then [chr r]
  else if i <=? rune2Max then
    [ chr (Z.lor t2 (Z.shiftr r 6)); chr (Z.lor tx (Z.land r maskx)) ]
  else if (maxRune <? i) || ((surrogateMin <=? i) && (i <=? surrogateMax)) then
    three runeError
  else if i <=? rune3Max then three r
  else
    [ chr (Z.lor t4 (Z.shiftr r 18));
      chr (Z.lor tx (Z.land (Z.shiftr r 12) maskx));
      chr (Z.lor tx (Z.land (Z.shiftr r 6) maskx));
      chr (Z.lor tx (Z.land r maskx)) ].

(** Well-formed UTF-8 byte sequences of one scalar value (the Unicode
    Standard, table 3-7), and strings made of them: what
    [utf8.ValidString] accepts. *)
Definition between (lo hi : Z) (b : byte) : Prop := lo <= code b <= hi.

Inductive WellFormed : list byte -> Prop :=
| wf_ascii b : between 0x00 0x7F b -> WellFormed [b]
| wf_2 b0 b1 :
    between 0xC2 0xDF b0 -> between 0x80 0xBF b1 -> WellFormed [b0; b1]
| wf_3_e0 b0 b1 b2 :
    between 0xE0 0xE0 b0 -> between 0xA0 0xBF b1 -> between 0x80 0xBF b2 ->
    WellFormed [b0; b1; b2]
| wf_3_e1 b0 b1 b2 :
    between 0xE1 0xEC b0 -> between 0x80 0xBF b1 -> between 0x80 0xBF b2 ->
    WellFormed [b0; b1; b2]
| wf_3_ed b0 b1 b2 :
    between 0xED 0xED b0 -> between 0x80 0x9F b1 -> between 0x80 0xBF b2 ->
    WellFormed [b0; b1; b2]
| wf_3_ee b0 b1 b2 :
    between 0xEE 0xEF b0 -> between 0x80 0xBF b1 -> between 0x80 0xBF b2 ->
    WellFormed [b0; b1; b2]
| wf_4_f0 b0 b1 b2 b3 :
    between 0xF0 0xF0 b0 -> between 0x90 0xBF b1 -> between 0x80 0xBF b2 ->
    between 0x80 0xBF b3 -> WellFormed [b0; b1; b2; b3]
| wf_4_f1 b0 b1 b2 b3 :
    between 0xF1 0xF3 b0 -> between 0x80 0xBF b1 -> between 0x80 0xBF b2 ->
    between 0x80 0xBF b3 -> WellFormed [b0; b1; b2; b3]
| wf_4_f4 b0 b1 b2 b3 :
    between 0xF4 0xF4 b0 -> between 0x80 0x8F b1 -> between 0x80 0xBF b2 ->
    between 0x80 0xBF b3 -> WellFormed [b0; b1; b2; b3].

(** The scalar value that a sequence of two, three or four bytes encodes,
    from the values of its bytes. *)
Definition rune2 (c0 c1 : Z) : Z := (c0 - 0xC0) * 2 ^ 6 + (c1 - 0x80).
Definition rune3 (c0 c1 c2 : Z) : Z :=
  (c0 - 0xE0) * 2 ^ 12 + (c1 - 0x80) * 2 ^ 6 + (c2 - 0x80).
Definition rune4 (c0 c1 c2 c3 : Z) : Z :=
  (c0 - 0xF0) * 2 ^ 18 + (c1 - 0x80) * 2 ^ 12 + (c2 - 0x80) * 2 ^ 6 + (c3 - 0x80).

Inductive ValidBytes : list byte -> Prop :=
| valid_nil : ValidBytes []
| valid_app u s : WellFormed u -> ValidBytes s -> ValidBytes (u ++ s).

Definition ValidString (s : string) : Prop := ValidBytes (bytes_of_string s).

End utf8.

(* ===================================================================== *)
(** * Collaborators: logger, key-value store, dictionary, L1 client       *)
(* ===================================================================== *)

Module log.

(** A structured log line: [log.Default.With(k1, v1, ...).Info(msg)]. *)
Inductive Field : Type :=
| FError (e : error)
| FBigInt (z : Z)          (* [x.String()] of a [*big.Int] *)
| FString (s : string).

Record Entry : Type := { fields : list (string * Field); message : string }.

(** [x.String()] of a [*big.Int] that may be [nil]: [String] is defined
    on a nil receiver and gives ["<nil>"]. *)
Definition bigIntString (x : option Z) : Field :=
  match x with
  | Some z => FBigInt z
  | None => FString "<nil>"
  end.

(** What a call can end in when it may panic: [Panic(msg)] writes the
    entry and panics with it; a failed type assertion is a run-time
    panic. *)
Inductive Outcome (A : Type) : Type :=
| Returned (a : A)
| Panicked (entry : Entry).
Arguments Returned {A} a.
Arguments Panicked {A} entry.

Definition runtimePanic {A : Type} (msg : string) : Outcome A :=
  Panicked {| fields := []; message := msg |}.

Definition andThen {A B : Type} (o : Outcome A) (k : A -> Outcome B) : Outcome B :=
  match o with
  | Returned a => k a
  | Panicked e => Panicked e
  end.

End log.
Import log.

Module db.

(** Modelled from the spec: the interface [db.Databaser] is not part of
    the sources.  It is the "key-value collaborator" in which the
    checkpoint is "stored under a fixed string key as 8 big-endian bytes",
    used through [Get] and [Put] only.  The store is passed explicitly;
    [Get] yields [None] for a [nil] slice, which is what the callers take
    for a key that was never written. *)
Class Databaser (DB : Type) : Type := {
  Get : DB -> string -> Res (option (list byte));
  Put : DB -> string -> list byte -> DB * option error
}.

(** Modelled from the spec: what a caller relies on, that a value which
    was put without error is the one read back. *)
Class DatabaserLaws (DB : Type) `{Databaser DB} : Prop := {
  get_put : forall (d d' : DB) (k : string) (v : list byte),
    v <> [] -> Put d k v = (d', None) -> Get d' k = Ok (Some v)
}.

(** An in-memory store, on which [Put] never fails. *)
Definition MemDB : Type := gmap string (list byte).

#[global] Instance MemDB_Databaser : Databaser MemDB := {
  Get d k := Ok (d !! k);
  Put d k v := (<[k := v]> d, None)
}.

End db.

Module base.

(** Modelled from the spec: the type [base.Dictionary] (package
    [pkg/common]) is not part of the sources.  The specification calls
    the two dictionaries "lookup tables (fact→page-hashes,
    page-hash→carrying-transaction)" with the operations
    [Add]/[Get]/[Exists]: a map from strings to values, where [Get] of a
    missing key is the [nil] interface ([None]). *)
Abbreviation Dictionary V := (gmap string V).

Definition Add {V : Type} (key : string) (value : V) (dict : Dictionary V)
  : Dictionary V := <[key := value]> dict.
Definition Get {V : Type} (dict : Dictionary V) (key : string) : option V :=
  dict !! key.
Definition Exist {V : Type} (dict : Dictionary V) (key : string) : bool :=
  bool_decide (is_Some (dict !! key)).

End base.

Module abi.

(** A value decoded from an event, with its dynamic Go type. *)
Inductive Value : Type :=
| Bytes32 (v : Z)                  (* [[32]byte], big-endian *)
| Bytes32Slice (vs : list Z)       (* [[][32]byte] *)
| BigInt (z : Z)                   (* [*big.Int] *)
| Bytes (b : list byte).           (* [[]byte] *)

(** An [abi.ABI] is used through [UnpackIntoMap(event, name, data)]
    only, so it is modelled by that function: the fields of the event
    [name] decoded from [data], or an error. *)
Definition ABI : Type := string -> list byte -> Res (gmap string Value).

Definition UnpackIntoMap (contract : ABI) (name : string) (data : list byte)
  : Res (gmap string Value) := contract name data.

(** The zero value [abi.ABI{}] knows no event. *)
Definition empty : ABI := fun _ _ => Err "abi: could not locate named method or event".

End abi.

Module common.

Definition hexdigit (n : Z) : ascii :=
  nth (Z.to_nat n) (list_ascii_of_string "0123456789abcdef") "0"%char.

Fixpoint hex_fixed (digits : nat) (z : Z) : string :=
  match digits with
  | O => ""
  | S d => hex_fixed d (z / 16) +:+ String (hexdigit (z mod 16)) ""
  end.

(** [common.BytesToHash(b).Hex()] for the 32 bytes of value [h]:
    ["0x"] and 64 hexadecimal digits. *)
Definition Hex (h : Z) : string := "0x" +:+ hex_fixed 64 (h mod 2 ^ 256).

End common.

Module types.

(** [types.Log] of go-ethereum. *)
Record Log : Type := {
  Address : Z;
  Topics : list Z;
  Data : list byte;
  BlockNumber : Z;
  TxHash : Z;
  BlockHash : Z
}.

End types.

Module ethereum.

(** [ethereum.FilterQuery]; an unset bound is [None]. *)
Record FilterQuery : Type := {
  FromBlock : option Z;
  ToBlock : option Z;
  Addresses : list Z;
  Topics : list (list Z)
}.

(** Which logs a query selects, as [eth_getLogs] defines it: both block
    bounds are inclusive, an empty address list selects every address,
    and the topic at each position has to be one of the alternatives
    listed for that position (an empty list allows any). *)
Definition inRange (q : FilterQuery) (l : types.Log) : bool :=
  match FromBlock q with Some f => f <=? types.BlockNumber l | None => true end
  && match ToBlock q with Some t => types.BlockNumber l <=? t | None => true end.

Definition inAddresses (q : FilterQuery) (l : types.Log) : bool :=
  match Addresses q with
  | [] => true
  | addrs => bool_decide (types.Address l ∈ addrs)
  end.

Fixpoint topicsMatch (alts : list (list Z)) (topics : list Z) : bool :=
  match alts, topics with
  | [], _ => true
  | [] :: alts', _ :: topics' => topicsMatch alts' topics'
  | alt :: alts', t :: topics' => bool_decide (t ∈ alt) && topicsMatch alts' topics'
  | _ :: _, [] => false
  end.

Definition selects (q : FilterQuery) (l : types.Log) : bool :=
  inRange q l && inAddresses q l && topicsMatch (Topics q) (types.Topics l).

End ethereum.

Module ethclient.

(** The calls the synchronizer makes on [*ethclient.Client]. *)
Record Client : Type := {
  ChainID : Res Z;
  BlockNumber : Res Z;
  FilterLogs : ethereum.FilterQuery -> Res (list types.Log);
  TransactionByHash : Z -> Res (list byte)   (* the input data of the transaction *)
}.

(** A synthetic log source: a chain of known logs, in chain order. *)
Definition synthetic (chainID head : Z) (logs : list types.Log)
    (txs : gmap Z (list byte)) : Client := {|
  ChainID := Ok chainID;
  BlockNumber := Ok head;
  FilterLogs q := Ok (filter (fun l => ethereum.selects q l = true) logs);
  TransactionByHash h :=
    match txs !! h with
    | Some data => Ok data
    | None => Err "not found"
    end
|}.

End ethclient.

(* ===================================================================== *)
(** * Package starknet: helpers of the state service                      *)
(* ===================================================================== *)

Module starknet.

Definition latestBlockSynced : string := "latestBlockSynced".
Definition blockOfStarknetDeploymentContractMainnet : Z := 13627000.
Definition blockOfStarknetDeploymentContractGoerli : Z := 5853000.
Definition MaxChunk : Z := 10000.

Section contractState.

(** [pedersen.Digest], which returns a big integer and an error at
    this call site. *)
Variable Digest : Z -> Z -> Res Z.

(** The [*big.Int] that [pedersen.Digest] returns beside an error
    ([None] for [nil]); the body of the package is not in the sources. *)
Variable DigestVal : Z -> Z -> option Z.

(** [log.Default.With("Error", err, "ContractInfo Hash", ...,
    "Storage Commitment", ..., "Function", function, more...).Panic(...)]. *)
Definition digestPanic (err : error) (contractHash storageRoot : Z)
    (function : string) (more : list (string * Field)) : Outcome Z :=
  Panicked {|
    fields := [ ("Error", FError err);
                ("ContractInfo Hash", FBigInt contractHash);
                ("Storage Commitment", FBigInt storageRoot);
                ("Function", FString function) ] ++ more;
    message := "Couldn't calculate the digest" |}.

(** [contractState]: the value stored in the leaf of the state tree,
    [h(h(h(contract_hash, storage_root), 0), 0)].  At the second and the
    third step [val] has been assigned by the call that failed when the
    entry is written, so that ["First Hash"] and ["Second Hash"] carry the
    value returned beside the error. *)
Definition contractState (contractHash storageRoot : Z) : Outcome Z :=
  match Digest contractHash storageRoot with
  | Err err =>
      digestPanic err contractHash storageRoot "h(contract_hash, storage_root)" []
  | Ok val =>
      match Digest val 0 with
      | Err err =>
          digestPanic err contractHash storageRoot
                      "h(h(contract_hash, storage_root), 0)"
                      [ ("First Hash", bigIntString (DigestVal val 0)) ]
      | Ok val =>
          match Digest val 0 with
          | Err err =>
              digestPanic err contractHash storageRoot
                          "h(h(h(contract_hash, storage_root), 0), 0)"
                          [ ("Second Hash", bigIntString (DigestVal val 0)) ]
          | Ok val => Returned val
          end
      end
  end.

End contractState.

(** The loop of [remove0x] over the runes of [s]; every turn consumes at
    least one byte, so [length s] turns are enough. *)
Fixpoint remove0x_loop (fuel : nat) (s answer : list byte) (found : bool)
  : list byte :=
  match fuel, s with
  | S fuel', _ :: _ =>
      let '(char, width) := utf8.decoderune s in
      let found :=
        found || (negb (char =? code "0"%char) && negb (char =? code "x"%char)) in
      let answer := if found then answer ++ utf8.encoderune char else answer in
      remove0x_loop fuel' (drop width s) answer found
  | _, _ => answer
  end.

Definition remove0x (s : string) : string :=
  let b := bytes_of_string s in
  let answer := remove0x_loop (length b) b [] false in
  if (length answer =? 0)%nat then "0" else string_of_bytes answer.

Section checkpoint.

Context {DB : Type} `{db.Databaser DB}.

(** [latestBlockQueried(database)]. *)
Definition latestBlockQueried (database : DB) : Res Z :=
  match db.Get database latestBlockSynced with
  | Err err => Err err
  | Ok None => Ok 0
  | Ok (Some blockNumber) =>
      match ReadUint64 blockNumber with
      | Err err => Err err
      | Ok ret => Ok (int64 ret)
      end
  end.

(** [updateLatestBlockQueried(database, block)]: the new store and the
    error. *)
Definition updateLatestBlockQueried (database : DB) (block : Z)
  : DB * option error :=
  let b := PutUint64 (uint64 (int64 (block + 1))) in
  db.Put database latestBlockSynced b.

End checkpoint.

End starknet.

(* ===================================================================== *)
(** * Package starknet: the L1 synchronizer                               *)
(* ===================================================================== *)

Module Synchronizer.

Import starknet.

Record contractsStruct : Type := {
  contract : abi.ABI;
  eventName : string;
  topic : string;
  address : Z
}.

(** The zero value, which indexing the map of contracts with an unknown
    address yields. *)
Definition zeroContract : contractsStruct :=
  {| contract := abi.empty; eventName := ""; topic := ""; address := 0 |}.

Record eventStruct : Type := {
  ev_address : Z;
  event : gmap string abi.Value;
  transactionHash : Z
}.

(** The shared state of the synchronizer: the two dictionaries and the
    queue of pending facts. *)
Record Synchronizer : Type := {
  MemoryPageHash : gmap string Z;          (* page hash ↦ transaction hash *)
  GpsVerifier : gmap string (list Z);      (* fact ↦ hashes of its pages *)
  facts : list string
}.

Definition NewSynchronizer : Synchronizer :=
  {| MemoryPageHash := ∅; GpsVerifier := ∅; facts := [] |}.

(** ** Checkpoint *)

Section checkpoint.

Context {DB : Type} `{db.Databaser DB}.

(** [(s *Synchronizer).latestBlockQueried()]. *)
Definition latestBlockQueried (database : DB) : Res Z :=
  match db.Get database latestBlockSynced with
  | Err err => Err err
  | Ok None => Ok 0
  | Ok (Some get) =>
      match ReadUint64 get with
      | Err err => Err err
      | Ok ret => Ok (int64 ret)
      end
  end.

(** [(s *Synchronizer).updateLatestBlockQueried(block)]: the new store
    and the error. *)
Definition updateLatestBlockQueried (database : DB) (block : Z)
  : DB * option error :=
  let b := PutUint64 (uint64 block) in
  db.Put database latestBlockSynced b.

End checkpoint.

(** ** Backfill *)

Section loadEvents.

Variable ethereumClient : ethclient.Client.

(** [id.Int64() == 1] on the chain id; a failed call gives block 0. *)
Definition initialBlockForStarknetContract : Z :=
  match ethclient.ChainID ethereumClient with
  | Err _ => 0
  | Ok id =>
      if int64 id =? 1 then blockOfStarknetDeploymentContractMainnet
      else blockOfStarknetDeploymentContractGoerli
  end.

Variable contracts : gmap Z contractsStruct.

Definition lookupContract (a : Z) : contractsStruct :=
  default zeroContract (contracts !! a).

(** The addresses of the query: the keys of [contracts], in the order the
    iteration over the map gives them. *)
Definition addresses : list Z := (map_to_list contracts).*1.

Definition watchedTopics : list Z :=
  [ 0x73b132cb33951232d83dc0f1f81c2d10f9a2598f057404ed02756716092097bb;
    0xb8b9c39aeba1cfd98c38dfeebe11c2f7e02b334cbe9f05f22b442a5d9c1ea0c5;
    0x9866f8ddfe70bb512b2f2b28b49d4017c43f7ba775f1a20c61c13eea8cdac111 ].

(** The query of one window: [FromBlock: i, ToBlock: i + increment], the
    sum being one of [uint64]. *)
Definition windowQuery (i : Z) : ethereum.FilterQuery :=
  {| ethereum.FromBlock := Some (int64 i);
     ethereum.ToBlock := Some (int64 (uint64 (i + uint64 MaxChunk)));
     ethereum.Addresses := addresses;
     ethereum.Topics := [watchedTopics] |}.

(** The inner loop over the logs of one window: a log that does not decode
    is skipped, the others are sent on the channel. *)
Fixpoint sendLogs (starknetLogs : list types.Log) (eventChan : list eventStruct)
  : list eventStruct :=
  match starknetLogs with
  | [] => eventChan
  | vLog :: rest =>
      let c := lookupContract (types.Address vLog) in
      match abi.UnpackIntoMap (contract c) (eventName c) (types.Data vLog) with
      | Err _ => sendLogs rest eventChan                    (* continue *)
      | Ok event =>
          sendLogs rest
            (eventChan ++ [ {| ev_address := address c;
                               event := event;
                               transactionHash := types.TxHash vLog |} ])
      end
  end.

(** The loop [for i < latestBlockNumber] of [loadEvents], with the events
    sent on [eventChan] so far; [None] when the fuel runs out before the
    loop ends. *)
Fixpoint backfillLoop (fuel : nat) (latestBlockNumber i : Z)
    (eventChan : list eventStruct) : option (list eventStruct) :=
  match fuel with
  | O => None
  | S fuel' =>
      if i <? latestBlockNumber then
        match ethclient.FilterLogs ethereumClient (windowQuery i) with
        | Err _ => Some eventChan                           (* break *)
        | Ok starknetLogs =>
            backfillLoop fuel' latestBlockNumber
                         (uint64 (i + uint64 MaxChunk))
                         (sendLogs starknetLogs eventChan)
        end
      else Some eventChan
  end.

(** [loadEvents] up to the subscription for new logs: the events the
    backfill has sent when it ends. *)
Definition loadEvents_backfill (fuel : nat) : Res (option (list eventStruct)) :=
  match ethclient.BlockNumber ethereumClient with
  | Err err => Err err
  | Ok latestBlockNumber =>
      Ok (backfillLoop fuel latestBlockNumber
                       (uint64 initialBlockForStarknetContract) [])
  end.

End loadEvents.

(** ** Fact resolution *)

(** One turn of the event loop of [FetchStarknetState]: the three kinds of
    fields an event can carry update the dictionaries and the queue. *)
Definition onGpsStatementVerifier (l : eventStruct) (s : Synchronizer)
  : Outcome Synchronizer :=
  match event l !! "factHash", event l !! "pagesHashes" with
  | Some factHash, Some pagesHashes =>
      match factHash, pagesHashes with
      | abi.Bytes32 b, abi.Bytes32Slice pages =>
          Returned {| MemoryPageHash := MemoryPageHash s;
                      GpsVerifier := base.Add (common.Hex b) pages (GpsVerifier s);
                      facts := facts s |}
      | _, _ => runtimePanic "interface conversion"
      end
  | _, _ => Returned s
  end.

Definition onMemoryPageFactRegistry (l : eventStruct) (s : Synchronizer)
  : Outcome Synchronizer :=
  match event l !! "memoryHash" with
  | Some memoryHash =>
      match memoryHash with
      | abi.BigInt z =>
          let key := common.Hex (Z.abs z) in
          let value := transactionHash l in
          Returned {| MemoryPageHash := base.Add key value (MemoryPageHash s);
                      GpsVerifier := GpsVerifier s;
                      facts := facts s |}
      | _ => runtimePanic "interface conversion"
      end
  | None => Returned s
  end.

Definition onStateTransitionFact (l : eventStruct) (s : Synchronizer)
  : Outcome Synchronizer :=
  match event l !! "stateTransitionFact" with
  | Some fact =>
      match fact with
      | abi.Bytes32 b =>
          Returned {| MemoryPageHash := MemoryPageHash s;
                      GpsVerifier := GpsVerifier s;
                      facts := facts s ++ [common.Hex b] |}
      | _ => runtimePanic "interface conversion"
      end
  | None => Returned s
  end.

Definition handleEvent (l : eventStruct) (s : Synchronizer) : Outcome Synchronizer :=
  andThen (onGpsStatementVerifier l s) (fun s =>
  andThen (onMemoryPageFactRegistry l s) (fun s =>
  onStateTransitionFact l s)).

(** The synchronizer together with its poller: whether the goroutine of
    the poller is still in its loop, and the facts it has started
    [processMemoryPages] for, oldest first. *)
Record Running : Type := {
  sync : Synchronizer;
  polling : bool;
  started : list string
}.

Definition start : Running :=
  {| sync := NewSynchronizer; polling := true; started := [] |}.

(** One tick of the poller's ticker. *)
Definition tick (r : Running) : Running :=
  if polling r then
    match facts (sync r) with
    | [] => r                                               (* continue *)
    | fact :: rest =>
        if base.Exist (GpsVerifier (sync r)) fact then
          {| sync := {| MemoryPageHash := MemoryPageHash (sync r);
                        GpsVerifier := GpsVerifier (sync r);
                        facts := rest |};
             polling := false;                              (* return *)
             started := started r ++ [fact] |}
        else r
    end
  else r.

Inductive Action : Type :=
| Deliver (l : eventStruct)      (* an event arrives on the channel *)
| Tick.                          (* the ticker fires *)

Definition step (r : Running) (a : Action) : Outcome Running :=
  match a with
  | Tick => Returned (tick r)
  | Deliver l =>
      andThen (handleEvent l (sync r)) (fun s =>
      Returned {| sync := s; polling := polling r; started := started r |})
  end.

Fixpoint run (r : Running) (actions : list Action) : Outcome Running :=
  match actions with
  | [] => Returned r
  | a :: rest => andThen (step r a) (fun r' => run r' rest)
  end.

(** The fact that the state contract announces with an action. *)
Definition announced (a : Action) : list string :=
  match a with
  | Deliver l =>
      match event l !! "stateTransitionFact" with
      | Some (abi.Bytes32 b) => [common.Hex b]
      | _ => []
      end
  | Tick => []
  end.

(** [processMemoryPages(fact)]: the pages collected when the loop ends, an
    early return on a transport error, or a panic on a failed type
    assertion. *)
Section processMemoryPages.

Variable ethereumClient : ethclient.Client.
Variable s : Synchronizer.

Fixpoint collectPages (memoryPages : list Z) (pages : list (list byte))
  : Outcome (Res (list (list byte))) :=
  match memoryPages with
  | [] => Returned (Ok pages)
  | v :: rest =>
      match base.Get (MemoryPageHash s) (common.Hex v) with
      | None => runtimePanic "interface conversion"
      | Some transactionHash =>
          match ethclient.TransactionByHash ethereumClient transactionHash with
          | Err err => Returned (Err err)
          | Ok data => collectPages rest (pages ++ [data])
          end
      end
  end.

Definition processMemoryPages (fact : string) : Outcome (Res (list (list byte))) :=
  match base.Get (GpsVerifier s) fact with
  | None => runtimePanic "interface conversion"
  | Some memoryPages => collectPages memoryPages []
  end.

End processMemoryPages.

End Synchronizer.

(* ===================================================================== *)
(** * The specification's formulations                                    *)
(* ===================================================================== *)

Module Spec.

(** "commit = Digest(Digest(Digest(contractHash, storageRoot), 0), 0)":
    three chained applications, an error of any of them being the
    result. *)
Definition commit (Digest : Z -> Z -> Res Z) (contractHash storageRoot : Z)
  : Res Z :=
  Go.bind (Go.bind (Digest contractHash storageRoot)
                   (fun v => Digest v 0))
          (fun v => Digest v 0).

(** "The suffix of s beginning at the first character that is neither
    '0' nor 'x'", and "0" when there is no such character. *)
Definition is0x (b : byte) : bool :=
  (code b =? code "0"%char) || (code b =? code "x"%char).

Fixpoint skip0x (s : list byte) : list byte :=
  match s with
  | [] => []
  | b :: rest => if is0x b then skip0x rest else s
  end.

Definition remove0x (s : string) : string :=
  match skip0x (bytes_of_string s) with
  | [] => "0"
  | suffix => string_of_bytes suffix
  end.

End Spec.

(* ===================================================================== *)
(** * Scenarios                                                           *)
(* ===================================================================== *)

Module Scenario.

Import Synchronizer.

(** A fact and the hash of its only page. *)
Definition fact7 : Z := 7.
Definition page9 : Z := 9.

(** The state contract announces the fact. *)
Definition factEvent : eventStruct :=
  {| ev_address := 0;
     event := {[ "stateTransitionFact" := abi.Bytes32 fact7 ]};
     transactionHash := 0x1001 |}.

(** The proof verifier publishes the page hashes of the fact. *)
Definition pagesEvent : eventStruct :=
  {| ev_address := 0;
     event := {[ "factHash" := abi.Bytes32 fact7;
                 "pagesHashes" := abi.Bytes32Slice [page9] ]};
     transactionHash := 0x1002 |}.

(** The registry records the transaction that carries the page. *)
Definition memoryEvent : eventStruct :=
  {| ev_address := 0;
     event := {[ "memoryHash" := abi.BigInt page9 ]};
     transactionHash := 0x1003 |}.

(** A second fact, with the same page. *)
Definition fact8 : Z := 8.

Definition factEvent8 : eventStruct :=
  {| ev_address := 0;
     event := {[ "stateTransitionFact" := abi.Bytes32 fact8 ]};
     transactionHash := 0x1004 |}.

Definition pagesEvent8 : eventStruct :=
  {| ev_address := 0;
     event := {[ "factHash" := abi.Bytes32 fact8;
                 "pagesHashes" := abi.Bytes32Slice [page9] ]};
     transactionHash := 0x1005 |}.

(** Both facts fully known before the ticker fires. *)
Definition twoResolvableFacts : list Action :=
  [ Deliver factEvent; Deliver factEvent8; Deliver pagesEvent;
    Deliver pagesEvent8; Deliver memoryEvent ].

(** The state reached after [twoResolvableFacts], the poller still
    running. *)
Definition bothKnown : Running :=
  {| sync := {| MemoryPageHash := {[ common.Hex page9 := 0x1003 ]};
                GpsVerifier := {[ common.Hex fact7 := [page9];
                                  common.Hex fact8 := [page9] ]};
                facts := [common.Hex fact7; common.Hex fact8] |};
     polling := true;
     started := [] |}.



(** A synthetic log source on a test network (chain id 5): one log of
    the state contract, in block 5863000, the block on which the first
    window of the backfill ends and the second begins; the head of the
    chain is at 5870000. *)
Definition starknetAddress : Z := 0xde29d060D45901Fb19ED6C6e959EB22d8626708e.

Definition starknetAbi : abi.ABI := fun name data =>
  if String.eqb name "LogStateTransitionFact"
  then Ok {[ "stateTransitionFact" := abi.Bytes32 (Uint64 data) ]}
  else Err "abi: could not locate named method or event".

Definition contracts : gmap Z contractsStruct :=
  {[ starknetAddress :=
       {| contract := starknetAbi;
          eventName := "LogStateTransitionFact";
          topic := "0x9866f8ddfe70bb512b2f2b28b49d4017c43f7ba775f1a20c61c13eea8cdac111";
          address := 0 |} ]}.

Definition boundaryLog : types.Log :=
  {| types.Address := starknetAddress;
     types.Topics :=
       [0x9866f8ddfe70bb512b2f2b28b49d4017c43f7ba775f1a20c61c13eea8cdac111];
     types.Data := PutUint64 fact7;
     types.BlockNumber := 5863000;
     types.TxHash := 0x1001;
     types.BlockHash := 0x2001 |}.

Definition source : ethclient.Client :=
  ethclient.synthetic 5 5870000 [boundaryLog] ∅.

Definition boundaryEvent : eventStruct :=
  {| ev_address := 0;
     event := {[ "stateTransitionFact" := abi.Bytes32 fact7 ]};
     transactionHash := 0x1001 |}.

End Scenario.

(* ===================================================================== *)
(** * Further code of the packages                                        *)
(* ===================================================================== *)

Module runtime.

(** The runes that [for _, char := range s] yields for the bytes [s], in
    order; every turn consumes at least one byte, so [length s] turns are
    enough. *)
Fixpoint runes (fuel : nat) (s : list byte) : list Z :=
  match fuel, s with
  | S fuel', _ :: _ =>
      let '(char, width) := utf8.decoderune s in
      char :: runes fuel' (drop width s)
  | _, _ => []
  end.

(** The values a rune of a [range] clause can have: the scalar values of
    Unicode (and, among them, [runeError]). *)
Definition scalar (r : Z) : Prop := 0 <= r <= 0x10FFFF.

(** [char == '0' || char == 'x']. *)
Definition is0xRune (char : Z) : bool :=
  (char =? code "0"%char) || (char =? code "x"%char).

(** The runes from the first one that is neither '0' nor 'x'. *)
Fixpoint skip0xRunes (rs : list Z) : list Z :=
  match rs with
  | [] => []
  | r :: rest => if is0xRune r then skip0xRunes rest else rs
  end.

End runtime.

Module Backfill.

Import starknet Synchronizer.

(** What one turn of the inner loop of [loadEvents] sends for a log: the
    event decoded with the ABI of the contract that emitted the log, or
    nothing when the data does not decode. *)
Definition eventOf (contracts : gmap Z contractsStruct) (vLog : types.Log)
  : option eventStruct :=
  let c := lookupContract contracts (types.Address vLog) in
  match abi.UnpackIntoMap (contract c) (eventName c) (types.Data vLog) with
  | Err _ => None
  | Ok event =>
      Some {| ev_address := address c;
              event := event;
              transactionHash := types.TxHash vLog |}
  end.

(** A log that the backfill watches: emitted by one of the contracts, with
    one of the three topics as its first topic. *)
Definition watched (contracts : gmap Z contractsStruct) (vLog : types.Log) : Prop :=
  is_Some (contracts !! types.Address vLog)
  /\ exists t rest, types.Topics vLog = t :: rest /\ t ∈ watchedTopics.

(** A client that answers no query. *)
Definition offline (chainID head : Z) : ethclient.Client :=
  {| ethclient.ChainID := Ok chainID;
     ethclient.BlockNumber := Ok head;
     ethclient.FilterLogs _ := Err "connection refused";
     ethclient.TransactionByHash _ := Err "connection refused" |}.

End Backfill.

Module strconv.

(** [strconv.Itoa]: the decimal digits, with a sign for a negative
    number. *)
Definition Itoa (i : Z) : string :=
  DecimalString.NilZero.string_of_int (Z.to_int i).

End strconv.

Module feeder.

(** The parts of [feeder.StateUpdateResponse] that the package reads.
    Package [feeder] is not in the sources: the fields are the ones its
    uses name, strings where the uses show it (an address is a key of
    [StorageDiffs] and is converted to bytes, a block hash is compared
    with a string); a contract hash, a key and a value are only copied. *)
Record KV : Type := { Key : string; Value : string }.

Record DeployedContract : Type := { Address : string; ContractHash : string }.

Record StateDiff : Type := {
  DeployedContracts : list DeployedContract;
  StorageDiffs : gmap string (list KV)
}.

Record StateUpdateResponse : Type := {
  BlockHash : string;
  NewRoot : string;
  OldRoot : string;
  stateDiff : StateDiff
}.

(** The call the synchronizer makes on [*feeder.Client] to follow the
    chain: [GetStateUpdate(blockHash, blockNumber)]. *)
Record Client : Type := {
  GetStateUpdate : string -> string -> Res StateUpdateResponse
}.

End feeder.

Module StateDiffs.

(** [StateDiff], [DeployedContract] and [KV] of package [starknet], with
    the fields that [stateUpdateResponseToStateDiff] sets. *)
Record KV : Type := { Key : string; Value : string }.

Record DeployedContract : Type := { Address : string; ContractHash : string }.

Record StateDiff : Type := {
  DeployedContracts : list DeployedContract;
  StorageDiffs : gmap string (list KV)
}.

(** The inner loop [for _, kv := range keyVals]. *)
Definition kvsOf (keyVals : list feeder.KV) : list KV :=
  foldl (fun kvs kv =>
           kvs ++ [ {| Key := feeder.Key kv; Value := feeder.Value kv |} ])
        [] keyVals.

(** [stateUpdateResponseToStateDiff(update)].  The order in which
    [range] visits a map is not fixed: [visited] is the entries of
    [update.StateDiff.StorageDiffs] in the order of this run. *)
Definition stateUpdateResponseToStateDiff
    (visited : list (string * list feeder.KV))
    (update : feeder.StateUpdateResponse) : StateDiff :=
  let deployedContracts :=
    foldl (fun acc v =>
             acc ++ [ {| Address := feeder.Address v;
                         ContractHash := feeder.ContractHash v |} ])
          [] (feeder.DeployedContracts (feeder.stateDiff update)) in
  let storageDiffs :=
    foldl (fun acc entry =>
             let '(addressDiff, keyVals) := entry in
             <[ addressDiff := kvsOf keyVals ]> acc)
          (∅ : gmap string (list KV)) visited in
  {| DeployedContracts := deployedContracts; StorageDiffs := storageDiffs |}.

End StateDiffs.

Module Facts.

Import starknet Synchronizer.

Record factChan : Type := { block : Z; fact : Z }.

Section FetchStarknetFact.

(** The node as it answers once [n] queries for logs have been made. *)
Variable ethereumClient : nat -> ethclient.Client.

(** [loadContract(path)] for the ABI of the state contract. *)
Variable loadContract : Res abi.ABI.

(** [vLog.MarshalJSON()]. *)
Variable MarshalJSON : types.Log -> Res (list byte).

Variable starknetAddress : Z.

Definition factQuery (i : Z) : ethereum.FilterQuery :=
  {| ethereum.FromBlock := Some (int64 i);
     ethereum.ToBlock := Some (int64 (uint64 (i + uint64 MaxChunk)));
     ethereum.Addresses := [starknetAddress];
     ethereum.Topics := [] |}.

(** The inner loop over the logs of one window, with the facts sent on
    the channel so far: the facts sent when it ends and the error it
    returns, if any, or a panic on a failed type assertion. *)
Fixpoint sendFacts (starknetAbi : abi.ABI) (starknetLogs : list types.Log)
    (fact : list factChan) : Outcome (list factChan * option error) :=
  match starknetLogs with
  | [] => Returned (fact, None)
  | vLog :: rest =>
      match MarshalJSON vLog with
      | Err err => Returned (fact, Some err)                  (* return err *)
      | Ok _ =>
          match abi.UnpackIntoMap starknetAbi "LogStateTransitionFact"
                                  (types.Data vLog) with
          | Err _ => sendFacts starknetAbi rest fact          (* continue *)
          | Ok event =>
              match event !! "stateTransitionFact" with
              | Some (abi.Bytes32 b) =>
                  sendFacts starknetAbi rest
                    (fact ++ [ {| block := int64 (types.BlockNumber vLog);
                                  fact := b |} ])
              | _ => runtimePanic "interface conversion"
              end
          end
      end
  end.

(** The loop [for i < latestBlockNumber], after [calls] queries for logs;
    [None] when the fuel runs out before the loop ends. *)
Fixpoint factLoop (starknetAbi : abi.ABI) (fuel calls : nat)
    (latestBlockNumber i : Z) (fact : list factChan)
  : option (Outcome (list factChan * option error)) :=
  match fuel with
  | O => None
  | S fuel' =>
      if i <? latestBlockNumber then
        match ethclient.FilterLogs (ethereumClient calls) (factQuery i) with
        | Err _ =>
            factLoop starknetAbi fuel' (S calls) latestBlockNumber i fact
                                                              (* continue *)
        | Ok starknetLogs =>
            match sendFacts starknetAbi starknetLogs fact with
            | Returned (fact', None) =>
                factLoop starknetAbi fuel' (S calls) latestBlockNumber
                         (uint64 (i + uint64 MaxChunk)) fact'
            | stopped => Some stopped
            end
        end
      else Some (Returned (fact, None))
  end.

Definition FetchStarknetFact (fuel : nat)
  : option (Outcome (list factChan * option error)) :=
  match ethclient.BlockNumber (ethereumClient 0%nat) with
  | Err err => Some (Returned ([], Some err))
  | Ok latestBlockNumber =>
      match loadContract with
      | Err err => Some (Returned ([], Some err))
      | Ok starknetAbi =>
          let initialBlock :=
            initialBlockForStarknetContract (ethereumClient 0%nat) in
          factLoop starknetAbi fuel 0 latestBlockNumber (uint64 initialBlock) []
      end
  end.

End FetchStarknetFact.

(** A node that refuses the first [down] queries for logs and then
    answers as [client]. *)
Definition recovering (down : nat) (client : ethclient.Client) (n : nat)
  : ethclient.Client :=
  if (n <? down)%nat
  then {| ethclient.ChainID := ethclient.ChainID client;
          ethclient.BlockNumber := ethclient.BlockNumber client;
          ethclient.FilterLogs _ := Err "connection refused";
          ethclient.TransactionByHash := ethclient.TransactionByHash client |}
  else client.

End Facts.

Module FastSync.

(** The goroutine that [updateStateForOneBlock] starts, for the update of
    one block. *)
Record task : Type := {
  blockNumber : Z;
  update : feeder.StateUpdateResponse
}.

Section fastSync.

Context {DB : Type} `{db.Databaser DB}.

Variable feederGatewayClient : feeder.Client.

(** [updateStateForOneBlock(blockIterator, lastBlockHash)]: the two values
    it returns and the goroutine it has started, if any. *)
Definition updateStateForOneBlock (blockIterator : Z) (lastBlockHash : string)
  : Z * string * option task :=
  match feeder.GetStateUpdate feederGatewayClient ""
                              (strconv.Itoa blockIterator) with
  | Err _ => (blockIterator, lastBlockHash, None)
  | Ok update =>
      if String.eqb lastBlockHash (feeder.BlockHash update)
      then (blockIterator, lastBlockHash, None)
      else (int64 (blockIterator + 1), feeder.BlockHash update,
            Some {| blockNumber := blockIterator; update := update |})
  end.

(** The first loop of [fastSync], with the goroutines started so far;
    [None] when the fuel runs out before the loop ends. *)
Fixpoint catchUp (fuel : nat) (blockIterator : Z) (lastBlockHash : string)
    (started : list task) : option (Z * string * list task) :=
  match fuel with
  | O => None
  | S fuel' =>
      let '(newValueForIterator, newBlockHash, go) :=
        updateStateForOneBlock blockIterator lastBlockHash in
      let started := started ++ option_list go in
      if String.eqb newBlockHash lastBlockHash
      then Some (blockIterator, lastBlockHash, started)       (* break *)
      else catchUp fuel' newValueForIterator newBlockHash started
  end.

(** [fastSync] up to its ticker: the block and the hash the first loop
    ends with and the goroutines started; [Err] when the checkpoint could
    not be read and [fastSync] has returned. *)
Definition fastSync (fuel : nat) (database : DB)
  : Res (option (Z * string * list task)) :=
  match Synchronizer.latestBlockQueried database with
  | Err err => Err err
  | Ok latestBlockQueried => Ok (catchUp fuel latestBlockQueried "" [])
  end.

End fastSync.

End FastSync.

Module Examples.

Import Synchronizer.

(** The fact at the head of the queue has no page hashes yet; the fact
    behind it has, and the transaction of its page is known. *)
Definition headUnknown : Running :=
  {| sync := {| MemoryPageHash := {[ common.Hex Scenario.page9 := 0x1003 ]};
                GpsVerifier := {[ common.Hex Scenario.fact8 := [Scenario.page9] ]};
                facts := [common.Hex Scenario.fact7; common.Hex Scenario.fact8] |};
     polling := true;
     started := [] |}.

Definition laterActions : list Action :=
  [ Tick; Deliver Scenario.memoryEvent; Deliver Scenario.pagesEvent8; Tick;
    Deliver Scenario.factEvent8; Tick ].

(** The state after [laterActions]: the second announcement of the fact
    behind the head is queued, nothing else has changed. *)
Definition headStillUnknown : Running :=
  {| sync := {| MemoryPageHash := MemoryPageHash (sync headUnknown);
                GpsVerifier := GpsVerifier (sync headUnknown);
                facts := [common.Hex Scenario.fact7; common.Hex Scenario.fact8;
                          common.Hex Scenario.fact8] |};
     polling := true;
     started := [] |}.

(** A gateway that knows the blocks [0], [1], ... of a list. *)
Fixpoint lookupBlock (blocks : list feeder.StateUpdateResponse) (number : Z)
    (blockNumber : string) : Res feeder.StateUpdateResponse :=
  match blocks with
  | [] => Err "block not found"
  | update :: rest =>
      if String.eqb (strconv.Itoa number) blockNumber then Ok update
      else lookupBlock rest (number + 1) blockNumber
  end.

Definition gateway (blocks : list feeder.StateUpdateResponse) : feeder.Client :=
  {| feeder.GetStateUpdate _ blockNumber := lookupBlock blocks 0 blockNumber |}.

Definition storageOf (address : string) : list feeder.KV :=
  [ {| feeder.Key := "0x5"; feeder.Value := address |};
    {| feeder.Key := "0x6"; feeder.Value := "0x22b" |} ].

Definition blockWith (hash : string) : feeder.StateUpdateResponse :=
  {| feeder.BlockHash := hash;
     feeder.NewRoot := "";
     feeder.OldRoot := "";
     feeder.stateDiff :=
       {| feeder.DeployedContracts :=
            [ {| feeder.Address := "0x20cf"; feeder.ContractHash := "0x10455" |} ];
          feeder.StorageDiffs :=
            {[ "0x20cf" := storageOf "0x20cf"; "0x31c8" := storageOf "0x31c8" ]} |} |}.

Definition threeBlocks : list feeder.StateUpdateResponse :=
  [ blockWith "0x47c3"; blockWith "0x2a70"; blockWith "0x4e1f" ].

(** The node of the backfill scenario, its state contract and a
    marshaller that does not fail. *)
Definition node : ethclient.Client :=
  ethclient.synthetic 5 5870000 [Scenario.boundaryLog] ∅.

Definition MarshalJSON (vLog : types.Log) : Res (list byte) := Ok (types.Data vLog).

End Examples.

(* ===================================================================== *)
(** * Properties                                                          *)
(* ===================================================================== *)

(** ** Bytes and big-endian words *)

Lemma code_range (b : byte) : 0 <= code b < 256.
Proof.
  unfold code. pose proof (N_ascii_bounded b) as H.
  remember (N_of_ascii b) as n. lia.
Qed.

Lemma code_chr (x : Z) : code (chr x) = x mod 256.
Proof.
  unfold code, chr.
  assert (0 <= x mod 256 < 256) by (apply Z.mod_pos_bound; lia).
  rewrite N_ascii_embedding by lia. apply Z2N.id. lia.
Qed.

Lemma chr_code (b : byte) : chr (code b) = b.
Proof.
  unfold chr. pose proof (code_range b).
  rewrite Z.mod_small by lia. unfold code.
  rewrite N2Z.id. apply ascii_N_embedding.
Qed.

(** Bits that do not overlap add up. *)
Lemma lor_disjoint (a c k : Z) :
  0 <= k -> 0 <= a < 2 ^ k -> Z.lor a (c * 2 ^ k) = a + c * 2 ^ k.
Proof.
  intros Hk Ha.
  assert (E : Z.land a (c * 2 ^ k) = 0).
  { apply Z.bits_inj'. intros n Hn.
    rewrite Z.land_spec, Z.bits_0.
    destruct (Z.lt_ge_cases n k) as [Hlt | Hge].
    - rewrite Z.mul_pow2_bits_low by lia. apply andb_false_r.
    - rewrite <- (Z.mod_small a (2 ^ k)) by lia.
      rewrite Z.mod_pow2_bits_high by lia. reflexivity. }
  rewrite <- Z.lxor_lor by exact E.
  symmetry. apply Z.add_nocarry_lxor. exact E.
Qed.

Lemma lor_disjoint_mod (a b k : Z) :
  0 <= k -> 0 <= a < 2 ^ k -> b mod 2 ^ k = 0 -> Z.lor a b = a + b.
Proof.
  intros Hk Ha Hb.
  assert (E : b = b / 2 ^ k * 2 ^ k).
  { pose proof (Z.div_mod b (2 ^ k)). lia. }
  rewrite E. apply lor_disjoint; assumption.
Qed.

Lemma Uint64_PutUint64 (v : Z) : 0 <= v < 2 ^ 64 -> Uint64 (PutUint64 v) = v.
Proof.
  intros Hv. unfold Uint64, PutUint64.
  rewrite !code_chr, !Z.shiftr_div_pow2, !Z.shiftl_mul_pow2 by lia.
  assert (E : v = v mod 256 + (v / 2 ^ 8) mod 256 * 2 ^ 8
                  + (v / 2 ^ 16) mod 256 * 2 ^ 16 + (v / 2 ^ 24) mod 256 * 2 ^ 24
                  + (v / 2 ^ 32) mod 256 * 2 ^ 32 + (v / 2 ^ 40) mod 256 * 2 ^ 40
                  + (v / 2 ^ 48) mod 256 * 2 ^ 48 + (v / 2 ^ 56) mod 256 * 2 ^ 56)
    by (Z.div_mod_to_equations; lia).
  pose proof (Z.mod_pos_bound v 256 ltac:(lia)) as H0.
  pose proof (Z.mod_pos_bound (v / 2 ^ 8) 256 ltac:(lia)) as H1.
  pose proof (Z.mod_pos_bound (v / 2 ^ 16) 256 ltac:(lia)) as H2.
  pose proof (Z.mod_pos_bound (v / 2 ^ 24) 256 ltac:(lia)) as H3.
  pose proof (Z.mod_pos_bound (v / 2 ^ 32) 256 ltac:(lia)) as H4.
  pose proof (Z.mod_pos_bound (v / 2 ^ 40) 256 ltac:(lia)) as H5.
  pose proof (Z.mod_pos_bound (v / 2 ^ 48) 256 ltac:(lia)) as H6.
  pose proof (Z.mod_pos_bound (v / 2 ^ 56) 256 ltac:(lia)) as H7.
  revert E H0 H1 H2 H3 H4 H5 H6 H7.
  generalize (v mod 256) ((v / 2 ^ 8) mod 256) ((v / 2 ^ 16) mod 256)
    ((v / 2 ^ 24) mod 256) ((v / 2 ^ 32) mod 256) ((v / 2 ^ 40) mod 256)
    ((v / 2 ^ 48) mod 256) ((v / 2 ^ 56) mod 256).
  intros a0 a1 a2 a3 a4 a5 a6 a7 E H0 H1 H2 H3 H4 H5 H6 H7.
  rewrite (lor_disjoint_mod (a6 * 2 ^ 48) _ 56) by (try (Z.div_mod_to_equations); lia).
  rewrite (lor_disjoint_mod (a5 * 2 ^ 40) _ 48) by (try (Z.div_mod_to_equations); lia).
  rewrite (lor_disjoint_mod (a4 * 2 ^ 32) _ 40) by (try (Z.div_mod_to_equations); lia).
  rewrite (lor_disjoint_mod (a3 * 2 ^ 24) _ 32) by (try (Z.div_mod_to_equations); lia).
  rewrite (lor_disjoint_mod (a2 * 2 ^ 16) _ 24) by (try (Z.div_mod_to_equations); lia).
  rewrite (lor_disjoint_mod (a1 * 2 ^ 8) _ 16) by (try (Z.div_mod_to_equations); lia).
  rewrite (lor_disjoint_mod a0 _ 8) by (try (Z.div_mod_to_equations); lia).
  lia.
Qed.

Lemma ReadUint64_PutUint64 (v : Z) :
  0 <= v < 2 ^ 64 -> ReadUint64 (PutUint64 v) = Ok v.
Proof.
  intros Hv. unfold ReadUint64.
  change (length (PutUint64 v) <? 8)%nat with false.
  cbv iota. unfold PutUint64 at 1. now rewrite Uint64_PutUint64.
Qed.

Lemma PutUint64_nonempty (v : Z) : PutUint64 v <> [].
Proof. discriminate. Qed.

Lemma int64_uint64 (x : Z) : is_int64 x -> int64 (uint64 x) = x.
Proof.
  unfold is_int64, int64, uint64. intros Hx.
  Z.div_mod_to_equations; lia.
Qed.

Lemma uint64_range (x : Z) : 0 <= uint64 x < 2 ^ 64.
Proof. unfold uint64. apply Z.mod_pos_bound. lia. Qed.

Lemma int64_range (x : Z) : is_int64 (int64 x).
Proof.
  unfold is_int64, int64.
  assert (0 <= (x + 2 ^ 63) mod 2 ^ 64 < 2 ^ 64) by (apply Z.mod_pos_bound; lia).
  lia.
Qed.

(** ** The checkpoint store *)

#[global] Instance MemDB_Laws : db.DatabaserLaws db.MemDB.
Proof.
  constructor. intros d d' k v _ E. cbn in E.
  injection E as <-. cbn. unfold db.MemDB in *.
  now rewrite lookup_insert_eq.
Qed.

(** The methods of the synchronizer do round-trip: what
    [updateLatestBlockQueried] saved is what [latestBlockQueried] loads. *)
Lemma Synchronizer_checkpoint_roundtrip
    (DB : Type) `{L : db.DatabaserLaws DB} (d d' : DB) (block : Z) :
  is_int64 block ->
  Synchronizer.updateLatestBlockQueried d block = (d', None) ->
  Synchronizer.latestBlockQueried d' = Ok block.
Proof.
  intros Hb Hput. unfold Synchronizer.updateLatestBlockQueried in Hput.
  apply db.get_put in Hput; [| apply PutUint64_nonempty].
  unfold Synchronizer.latestBlockQueried. rewrite Hput.
  rewrite ReadUint64_PutUint64 by apply uint64_range.
  now rewrite int64_uint64.
Qed.

(** C5 (as the code has it).  The package-level pair of functions does not
    round-trip: after a successful [updateLatestBlockQueried(database, h)]
    the store holds [h + 1] (wrapped to an [int64]), and that is what
    [latestBlockQueried(database)] returns, never [h]. *)
Theorem C5_package_level_save_stores_successor
    (DB : Type) `{L : db.DatabaserLaws DB} (d d' : DB) (h : Z) :
  is_int64 h ->
  starknet.updateLatestBlockQueried d h = (d', None) ->
  starknet.latestBlockQueried d' = Ok (int64 (h + 1))
  /\ starknet.latestBlockQueried d' <> Ok h.
Proof.
  intros Hh Hput. unfold starknet.updateLatestBlockQueried in Hput.
  apply db.get_put in Hput; [| apply PutUint64_nonempty].
  assert (E : starknet.latestBlockQueried d' = Ok (int64 (h + 1))).
  { unfold starknet.latestBlockQueried. rewrite Hput.
    rewrite ReadUint64_PutUint64 by apply uint64_range.
    now rewrite int64_uint64 by apply int64_range. }
  split; [exact E |].
  rewrite E. intros [= Heq]. revert Heq.
  unfold is_int64 in Hh. unfold int64.
  Z.div_mod_to_equations; lia.
Qed.

Lemma C5_package_level_witness :
  starknet.latestBlockQueried
    (fst (starknet.updateLatestBlockQueried (∅ : db.MemDB) 5)) = Ok (int64 (5 + 1))
  /\ starknet.latestBlockQueried
       (fst (starknet.updateLatestBlockQueried (∅ : db.MemDB) 5)) <> Ok 5.
Proof.
  apply (C5_package_level_save_stores_successor db.MemDB ∅ _ 5).
  - unfold is_int64. lia.
  - reflexivity.
Defined.

(** C9.  Cold start: when the store holds no value under the key of the
    checkpoint ([Get] gives a nil slice and no error), both
    [latestBlockQueried] functions return height 0 and no error. *)
Theorem C9_cold_start_loads_zero
    (DB : Type) `{D : db.Databaser DB} (d : DB) :
  db.Get d starknet.latestBlockSynced = Ok None ->
  starknet.latestBlockQueried d = Ok 0
  /\ Synchronizer.latestBlockQueried d = Ok 0.
Proof.
  intros Hget.
  unfold starknet.latestBlockQueried, Synchronizer.latestBlockQueried.
  now rewrite Hget.
Qed.

Lemma C9_cold_start_witness :
  starknet.latestBlockQueried (∅ : db.MemDB) = Ok 0
  /\ Synchronizer.latestBlockQueried (∅ : db.MemDB) = Ok 0.
Proof.
  apply (C9_cold_start_loads_zero db.MemDB ∅). reflexivity.
Defined.

(** ** The commitment of a contract *)

(** C2.  [contractState] returns exactly the three chained digests
    [Digest(Digest(Digest(contractHash, storageRoot), 0), 0)]: it returns
    [v] if and only if the chain yields [v], and for a digest that never
    fails it is that nested application. *)
Theorem C2_contractState_is_three_chained_digests
    (Digest : Z -> Z -> Res Z) (DigestVal : Z -> Z -> option Z)
    (contractHash storageRoot : Z) :
  (forall v, starknet.contractState Digest DigestVal contractHash storageRoot
             = Returned v
             <-> Spec.commit Digest contractHash storageRoot = Ok v)
  /\ (forall h : Z -> Z -> Z,
        (forall a b, Digest a b = Ok (h a b)) ->
        starknet.contractState Digest DigestVal contractHash storageRoot
        = Returned (h (h (h contractHash storageRoot) 0) 0)).
Proof.
  split.
  - intros v. unfold starknet.contractState, Spec.commit, Go.bind, starknet.digestPanic.
    destruct (Digest contractHash storageRoot) as [v1 | e1]; [| split; discriminate].
    destruct (Digest v1 0) as [v2 | e2]; [| split; discriminate].
    destruct (Digest v2 0) as [v3 | e3]; [| split; discriminate].
    split; intros [= ->]; reflexivity.
  - intros h Hh. unfold starknet.contractState. now rewrite !Hh.
Qed.




(** ** The commitment primitive *)

(** The table has the 506 points of the reference, all of them on the
    curve. *)
Lemma CONSTANT_POINTS_on_curve :
  length pedersen.CONSTANT_POINTS = 506%nat
  /\ forallb pedersen.on_curve pedersen.CONSTANT_POINTS = true.
Proof. split; vm_compute; reflexivity. Qed.

(** C1.  [Digest] is a function of its two inputs, and on the published
    reference vectors (the two of [TestDigest], the first of which is also
    that of [ExampleDigest]) it yields the published digests. *)
Theorem C1_Digest_matches_reference_vectors :
  (forall a b r1 r2,
      pedersen.Digest a b = r1 -> pedersen.Digest a b = r2 -> r1 = r2)
  /\ pedersen.Digest
       0x3d937c035c878245caf64531a5756109c53068da139362728feb561405371cb
       0x208a0a10250e382e1e4bbe2880906c2791bf6275695e02fbbc6aeff9cd8b31a
     = Ok 0x30e480bed5fe53fa909cc0f8c4d99b8f9f2c016be4c41e13a4848797979c662
  /\ pedersen.Digest
       0x58f580910a6ca59b28927c08fe6c43e2e303ca384badc365795fc645d479d45
       0x78734f65a067be9bdb39de18434d71e79f7b6466a4b66bbd979ab9e7515fe0b
     = Ok 0x68cc0b76cddd1dd4ed2301ada9b7c872b23875d5ff837b3a87993e0d9996b87.
Proof.
  split; [| split].
  - intros a b r1 r2 <- <-. reflexivity.
  - vm_compute. reflexivity.
  - vm_compute. reflexivity.
Qed.

Lemma chain_snoc (data : list Z) (x : Z) :
  pedersen.chain (data ++ [x])
  = Go.bind (pedersen.chain data) (fun d => pedersen.Digest d x).
Proof.
  unfold pedersen.chain. now rewrite fold_left_app.
Qed.

(** C3.  [ArrayDigest] chains [Digest] over the sequence from 0, one
    element at a time, and hashes the length in last; the empty sequence
    has a digest (that of the pair (0, 0)), and the vectors of
    [TestArrayDigest] come out as published. *)
Theorem C3_ArrayDigest_chains_and_folds_length :
  pedersen.chain [] = Ok 0
  /\ (forall data x,
        pedersen.chain (data ++ [x])
        = Go.bind (pedersen.chain data) (fun d => pedersen.Digest d x))
  /\ (forall data,
        pedersen.ArrayDigest data
        = Go.bind (pedersen.chain data)
                  (fun d => pedersen.Digest d (Z.of_nat (length data))))
  /\ pedersen.ArrayDigest [] = pedersen.Digest 0 0
  /\ pedersen.ArrayDigest []
     = Ok 0x49ee3eba8c1600700ee1b87eb599f16716b0b1022947733551fde4050ca6804
  /\ pedersen.ArrayDigest [1; 2; 3; 4; 5]
     = Ok 0x79c2de2c34baea4a6aa66288140b205e075dd05177c3e05222f48fb6808454a
  /\ pedersen.ArrayDigest
       [ 0x3ca0cfe4b3bc6ddf346d49d06ea0ed34e621062c0e056c1d0405d266e10268a;
         0x5668060aa49730b7be4801df46ec62de53ecd11abe43a32873000c36e8dc1f;
         0x3b056f100f96fb21e889527d41f4e39940135dd7a6c94cc6ed0268ee89e5615;
         0x7122e9063d239d89d4e336753845b76f2b33ca0d7f0c1acd4b9fe974994cc19;
         0x109f720a79e2a41471f054ca885efd90c8cfbbec37991d1b6343991e0a3e740 ]
     = Ok 0x3b4649f0914d7a85ae0bae94c33125bcbbe6a8a60091466b5d15b0c3d77c53e.
Proof.
  split; [reflexivity |].
  split; [exact chain_snoc |].
  split; [reflexivity |].
  split; [reflexivity |].
  split; [vm_compute; reflexivity |].
  split; vm_compute; reflexivity.
Qed.

(** ** The fact-resolution state machine *)

Section FactResolution.

Import Synchronizer.

Lemma tick_stopped (r : Running) : polling r = false -> tick r = r.
Proof. intros Hp. unfold tick. now rewrite Hp. Qed.

Lemma run_app (r : Running) (xs ys : list Action) :
  run r (xs ++ ys) = andThen (run r xs) (fun r' => run r' ys).
Proof.
  revert r. induction xs as [| a xs IH]; intros r; cbn; [reflexivity |].
  destruct (step r a) as [r' | e]; cbn; [apply IH | reflexivity].
Qed.

Lemma run_ticks_stopped (r : Running) (n : nat) :
  polling r = false -> run r (replicate n Tick) = Returned r.
Proof.
  intros Hp. induction n as [| n IH]; cbn; [reflexivity |].
  now rewrite tick_stopped.
Qed.

Lemma insert_keeps_entries {V : Type} (m : gmap string V) (key k : string) (v : V) :
  is_Some (m !! k) -> is_Some (<[key := v]> m !! k).
Proof.
  intros Hk. destruct (decide (key = k)) as [-> | Hne].
  - rewrite lookup_insert_eq. eauto.
  - now rewrite lookup_insert_ne.
Qed.

Lemma onGpsStatementVerifier_spec (l : eventStruct) (s s' : Synchronizer) :
  onGpsStatementVerifier l s = Returned s' ->
  facts s' = facts s
  /\ MemoryPageHash s' = MemoryPageHash s
  /\ (forall k, is_Some (GpsVerifier s !! k) -> is_Some (GpsVerifier s' !! k)).
Proof.
  unfold onGpsStatementVerifier, runtimePanic, base.Add.
  destruct (event l !! "factHash") as [factHash |];
    [| intros [= <-]; auto].
  destruct (event l !! "pagesHashes") as [pagesHashes |];
    [| intros [= <-]; auto].
  destruct factHash as [b | | |]; try discriminate.
  destruct pagesHashes as [| pages | |]; try discriminate.
  intros [= <-]. cbn. split; [reflexivity |]. split; [reflexivity |].
  intros k. apply insert_keeps_entries.
Qed.

Lemma onMemoryPageFactRegistry_spec (l : eventStruct) (s s' : Synchronizer) :
  onMemoryPageFactRegistry l s = Returned s' ->
  facts s' = facts s
  /\ GpsVerifier s' = GpsVerifier s
  /\ (forall k, is_Some (MemoryPageHash s !! k) -> is_Some (MemoryPageHash s' !! k)).
Proof.
  unfold onMemoryPageFactRegistry, runtimePanic, base.Add.
  destruct (event l !! "memoryHash") as [memoryHash |];
    [| intros [= <-]; auto].
  destruct memoryHash as [| | z |]; try discriminate.
  intros [= <-]. cbn. split; [reflexivity |]. split; [reflexivity |].
  intros k. apply insert_keeps_entries.
Qed.

Lemma onStateTransitionFact_spec (l : eventStruct) (s s' : Synchronizer) :
  onStateTransitionFact l s = Returned s' ->
  facts s' = facts s ++ announced (Deliver l)
  /\ GpsVerifier s' = GpsVerifier s
  /\ MemoryPageHash s' = MemoryPageHash s.
Proof.
  unfold onStateTransitionFact, announced, runtimePanic.
  destruct (event l !! "stateTransitionFact") as [fact |];
    [| intros [= <-]; now rewrite app_nil_r].
  destruct fact as [b | | |]; try discriminate.
  intros [= <-]. auto.
Qed.

(** What one event does to the shared state: the queue grows by the fact
    the event announces, and the dictionaries only gain entries. *)
Lemma handleEvent_spec (l : eventStruct) (s s' : Synchronizer) :
  handleEvent l s = Returned s' ->
  facts s' = facts s ++ announced (Deliver l)
  /\ (forall k, is_Some (GpsVerifier s !! k) -> is_Some (GpsVerifier s' !! k))
  /\ (forall k, is_Some (MemoryPageHash s !! k) -> is_Some (MemoryPageHash s' !! k)).
Proof.
  unfold handleEvent, andThen.
  destruct (onGpsStatementVerifier l s) as [s1 |] eqn:E1; [| discriminate].
  destruct (onMemoryPageFactRegistry l s1) as [s2 |] eqn:E2; [| discriminate].
  intros E3.
  apply onGpsStatementVerifier_spec in E1 as (F1 & M1 & G1).
  apply onMemoryPageFactRegistry_spec in E2 as (F2 & G2 & M2).
  apply onStateTransitionFact_spec in E3 as (F3 & G3 & M3).
  split; [congruence |]. split; intros k Hk.
  - rewrite G3, G2. auto.
  - rewrite M3. apply M2. now rewrite M1.
Qed.

(** The invariant of one step. *)
Lemma step_spec (r r' : Running) (a : Action) :
  step r a = Returned r' ->
  started r' ++ facts (sync r') = (started r ++ facts (sync r)) ++ announced a
  /\ (forall f, f ∈ started r' ->
                f ∈ started r \/ is_Some (GpsVerifier (sync r') !! f))
  /\ (forall k, is_Some (GpsVerifier (sync r) !! k) ->
                is_Some (GpsVerifier (sync r') !! k))
  /\ (length (started r') <= length (started r) + (if polling r then 1 else 0))%nat
  /\ (polling r' = true -> polling r = true /\ started r' = started r).
Proof.
  destruct a as [l |]; cbn.
  - unfold andThen. destruct (handleEvent l (sync r)) as [s |] eqn:E; [| discriminate].
    intros [= <-]. cbn.
    apply handleEvent_spec in E as (Hf & Hg & _).
    rewrite Hf. split; [now rewrite app_assoc |].
    split; [auto |]. split; [exact Hg |]. split; [lia | auto].
  - intros [= <-]. rewrite app_nil_r. unfold tick.
    destruct (polling r) eqn:Hp;
      [| rewrite Hp; repeat split; auto; try lia; discriminate].
    destruct (facts (sync r)) as [| fact rest] eqn:Hq;
      [rewrite Hp; repeat split; rewrite ?Hq; auto; lia |].
    unfold base.Exist. case_bool_decide as Hex.
    + cbn. split; [now rewrite <- app_assoc |].
      split.
      { intros f [Hf | Hf%list_elem_of_singleton]%elem_of_app; [auto |].
        subst f. auto. }
      split; [auto |]. split; [rewrite length_app; cbn; lia | discriminate].
    + rewrite Hp. repeat split; rewrite ?Hq; auto; lia.
Qed.

Lemma run_spec (actions : list Action) (r r' : Running) :
  run r actions = Returned r' ->
  started r' ++ facts (sync r')
  = (started r ++ facts (sync r)) ++ concat (map announced actions)
  /\ (forall f, f ∈ started r' ->
                f ∈ started r \/ is_Some (GpsVerifier (sync r') !! f))
  /\ (forall k, is_Some (GpsVerifier (sync r) !! k) ->
                is_Some (GpsVerifier (sync r') !! k))
  /\ (length (started r') <= length (started r) + (if polling r then 1 else 0))%nat.
Proof.
  revert r. induction actions as [| a actions IH]; intros r; cbn.
  - intros [= <-]. rewrite app_nil_r. repeat split; auto; lia.
  - unfold andThen. destruct (step r a) as [r1 |] eqn:E; [| discriminate].
    intros Hrun. apply step_spec in E as (E1 & E2 & E3 & E4 & E5).
    apply IH in Hrun as (H1 & H2 & H3 & H4).
    split; [rewrite H1, E1; now rewrite <- !app_assoc |].
    split.
    { intros f Hf. destruct (H2 f Hf) as [Hin | Hsome]; [| auto].
      destruct (E2 f Hin) as [Hin' | Hsome]; auto. }
    split; [auto |].
    destruct (polling r1) eqn:Hp1.
    + destruct (E5 eq_refl) as [-> Hst]. rewrite Hst in H4. exact H4.
    + lia.
Qed.

(** The poller starts at most one fact in its whole life. *)
Lemma poller_starts_at_most_one_fact (actions : list Action) (r : Running) :
  run start actions = Returned r -> (length (started r) <= 1)%nat.
Proof.
  intros H. apply run_spec in H as (_ & _ & _ & H). cbn in H. exact H.
Qed.

(** The pages are all collected only if the transaction of each is in
    the dictionary. *)
Lemma collectPages_complete (client : ethclient.Client) (s : Synchronizer)
    (hashes : list Z) (acc pages : list (list byte)) :
  collectPages client s hashes acc = Returned (Ok pages) ->
  length pages = (length acc + length hashes)%nat
  /\ Forall (fun h => is_Some (MemoryPageHash s !! common.Hex h)) hashes.
Proof.
  revert acc. induction hashes as [| h hashes IH]; intros acc; cbn.
  - intros [= <-]. split; [lia | constructor].
  - unfold base.Get, runtimePanic.
    destruct (MemoryPageHash s !! common.Hex h) as [tx |] eqn:Hh; [| discriminate].
    destruct (ethclient.TransactionByHash client tx) as [data |]; [| discriminate].
    intros Hrest. apply IH in Hrest as [Hlen Hall].
    rewrite length_app in Hlen. cbn in Hlen.
    split; [lia |]. constructor; [eauto | exact Hall].
Qed.

End FactResolution.

(** C4 (as the code has it).  The poller checks the page hashes of the
    fact at the head of the queue and nothing else: when they are recorded
    the tick starts the fact, whether or not the transactions of its pages
    are recorded; and when the transaction of its first page is not,
    [processMemoryPages] looks it up, gets [nil] and panics on the type
    assertion. *)
Theorem C4_fact_started_before_transactions_known
    (client : ethclient.Client) (r : Synchronizer.Running)
    (fact : string) (rest : list string) (h : Z) (hashes : list Z) :
  Synchronizer.polling r = true ->
  Synchronizer.facts (Synchronizer.sync r) = fact :: rest ->
  Synchronizer.GpsVerifier (Synchronizer.sync r) !! fact = Some (h :: hashes) ->
  Synchronizer.MemoryPageHash (Synchronizer.sync r) !! common.Hex h = None ->
  Synchronizer.started (Synchronizer.tick r) = Synchronizer.started r ++ [fact]
  /\ Synchronizer.facts (Synchronizer.sync (Synchronizer.tick r)) = rest
  /\ Synchronizer.MemoryPageHash (Synchronizer.sync (Synchronizer.tick r))
       !! common.Hex h = None
  /\ Synchronizer.processMemoryPages client
       (Synchronizer.sync (Synchronizer.tick r)) fact
     = runtimePanic "interface conversion".
Proof.
  intros Hp Hq Hf Hh. unfold Synchronizer.tick.
  rewrite Hp, Hq. unfold base.Exist.
  rewrite bool_decide_eq_true_2 by (rewrite Hf; eauto).
  cbn [Synchronizer.started Synchronizer.sync Synchronizer.facts
       Synchronizer.MemoryPageHash].
  split; [reflexivity |]. split; [reflexivity |]. split; [exact Hh |].
  unfold Synchronizer.processMemoryPages, base.Get.
  cbn [Synchronizer.GpsVerifier]. rewrite Hf.
  cbn [Synchronizer.collectPages]. unfold base.Get.
  cbn [Synchronizer.MemoryPageHash]. now rewrite Hh.
Qed.

Lemma C4_started_before_transactions_witness :
  exists r,
    Synchronizer.run Synchronizer.start
      [ Synchronizer.Deliver Scenario.factEvent;
        Synchronizer.Deliver Scenario.pagesEvent ] = Returned r
    /\ Synchronizer.started r = []
    /\ Synchronizer.started (Synchronizer.tick r)
       = Synchronizer.started r ++ [common.Hex Scenario.fact7]
    /\ Synchronizer.facts (Synchronizer.sync (Synchronizer.tick r)) = []
    /\ Synchronizer.MemoryPageHash (Synchronizer.sync (Synchronizer.tick r))
         !! common.Hex Scenario.page9 = None
    /\ Synchronizer.processMemoryPages Scenario.source
         (Synchronizer.sync (Synchronizer.tick r)) (common.Hex Scenario.fact7)
       = runtimePanic "interface conversion".
Proof.
  eexists. split; [vm_compute; reflexivity |].
  split; [reflexivity |].
  apply (C4_fact_started_before_transactions_known Scenario.source _
           (common.Hex Scenario.fact7) [] Scenario.page9 []).
  - reflexivity.
  - vm_compute. reflexivity.
  - vm_compute. reflexivity.
  - vm_compute. reflexivity.
Defined.

Lemma bothKnown_reached :
  Synchronizer.run Synchronizer.start Scenario.twoResolvableFacts
  = Returned Scenario.bothKnown.
Proof. vm_compute. reflexivity. Qed.

(** C7 (as the code has it).  The poller leaves its loop when it has
    started one fact: whenever the head of the queue is resolvable, the
    tick starts it, pops it and ends the poller, and no later tick, however
    many, changes anything; the rest of the queue is never drained. *)
Theorem C7_poller_returns_after_first_fact
    (r : Synchronizer.Running) (fact : string) (rest : list string) (n : nat) :
  Synchronizer.polling r = true ->
  Synchronizer.facts (Synchronizer.sync r) = fact :: rest ->
  is_Some (Synchronizer.GpsVerifier (Synchronizer.sync r) !! fact) ->
  Synchronizer.polling (Synchronizer.tick r) = false
  /\ Synchronizer.started (Synchronizer.tick r) = Synchronizer.started r ++ [fact]
  /\ Synchronizer.facts (Synchronizer.sync (Synchronizer.tick r)) = rest
  /\ Synchronizer.run (Synchronizer.tick r) (replicate n Synchronizer.Tick)
     = Returned (Synchronizer.tick r).
Proof.
  intros Hp Hq Hk.
  assert (E : Synchronizer.tick r
              = {| Synchronizer.sync :=
                     {| Synchronizer.MemoryPageHash :=
                          Synchronizer.MemoryPageHash (Synchronizer.sync r);
                        Synchronizer.GpsVerifier :=
                          Synchronizer.GpsVerifier (Synchronizer.sync r);
                        Synchronizer.facts := rest |};
                   Synchronizer.polling := false;
                   Synchronizer.started := Synchronizer.started r ++ [fact] |}).
  { unfold Synchronizer.tick. rewrite Hp, Hq. unfold base.Exist.
    now rewrite bool_decide_eq_true_2. }
  rewrite E. cbn. repeat split.
  now apply run_ticks_stopped.
Qed.

Lemma C7_poller_returns_witness :
  Synchronizer.polling (Synchronizer.tick Scenario.bothKnown) = false
  /\ Synchronizer.started (Synchronizer.tick Scenario.bothKnown)
     = Synchronizer.started Scenario.bothKnown ++ [common.Hex Scenario.fact7]
  /\ Synchronizer.facts (Synchronizer.sync (Synchronizer.tick Scenario.bothKnown))
     = [common.Hex Scenario.fact8]
  /\ Synchronizer.run (Synchronizer.tick Scenario.bothKnown)
                      (replicate 1000 Synchronizer.Tick)
     = Returned (Synchronizer.tick Scenario.bothKnown).
Proof.
  apply (C7_poller_returns_after_first_fact Scenario.bothKnown).
  - reflexivity.
  - reflexivity.
  - eexists. vm_compute. reflexivity.
Defined.

(** ** The backfill *)

(** The window that follows a window starts on the block the window ends
    on, and both bounds are inclusive. *)
Lemma windows_share_a_block (contracts : gmap Z Synchronizer.contractsStruct) (i : Z) :
  ethereum.ToBlock (Synchronizer.windowQuery contracts i)
  = ethereum.FromBlock
      (Synchronizer.windowQuery contracts (uint64 (i + uint64 starknet.MaxChunk))).
Proof.
  reflexivity.
Qed.

(** C6 (as the code has it).  On the synthetic source whose only log is in
    block 5863000, the backfill from block 5853000 to the head 5870000
    queries the windows [5853000, 5863000] and [5863000, 5873000]; both
    select the log, and its event is sent twice. *)
Theorem C6_log_on_window_boundary_is_sent_twice :
  Synchronizer.loadEvents_backfill Scenario.source Scenario.contracts 3
  = Ok (Some [Scenario.boundaryEvent; Scenario.boundaryEvent])
  /\ ethereum.selects (Synchronizer.windowQuery Scenario.contracts 5853000)
                      Scenario.boundaryLog = true
  /\ ethereum.selects (Synchronizer.windowQuery Scenario.contracts 5863000)
                      Scenario.boundaryLog = true.
Proof.
  split; [| split]; vm_compute; reflexivity.
Qed.

(** ** Runes *)

Lemma lor_disjoint_mod_l (a b k : Z) :
  0 <= k -> 0 <= a < 2 ^ k -> b mod 2 ^ k = 0 -> Z.lor b a = b + a.
Proof.
  intros. rewrite Z.lor_comm, (lor_disjoint_mod a b k) by assumption. lia.
Qed.

Lemma land_mask (c base k : Z) :
  0 <= k -> base mod 2 ^ k = 0 -> base <= c < base + 2 ^ k ->
  Z.land c (Z.ones k) = c - base.
Proof.
  intros Hk Hb Hc. rewrite Z.land_ones by assumption.
  symmetry. apply Z.mod_unique with (q := base / 2 ^ k); [left; lia |].
  pose proof (Z.div_mod base (2 ^ k)). lia.
Qed.

Lemma land_maskx (c : Z) : 0x80 <= c <= 0xBF -> Z.land c utf8.maskx = c - 0x80.
Proof. intros. apply (land_mask c 0x80 6); [lia | reflexivity | lia]. Qed.

Lemma land_mask2 (c : Z) : 0xC0 <= c <= 0xDF -> Z.land c utf8.mask2 = c - 0xC0.
Proof. intros. apply (land_mask c 0xC0 5); [lia | reflexivity | lia]. Qed.

Lemma land_mask3 (c : Z) : 0xE0 <= c <= 0xEF -> Z.land c utf8.mask3 = c - 0xE0.
Proof. intros. apply (land_mask c 0xE0 4); [lia | reflexivity | lia]. Qed.

Lemma land_mask4 (c : Z) : 0xF0 <= c <= 0xF7 -> Z.land c utf8.mask4 = c - 0xF0.
Proof. intros. apply (land_mask c 0xF0 3); [lia | reflexivity | lia]. Qed.

Lemma low6 (r : Z) : Z.land r utf8.maskx = r mod 2 ^ 6.
Proof. apply (Z.land_ones r 6). lia. Qed.

Lemma chr_eq (b : byte) (z : Z) : z = code b -> chr z = b.
Proof. intros ->. apply chr_code. Qed.

(** The bit operations of the decoder, as arithmetic. *)
Lemma bits2 (c0 c1 : Z) :
  0xC0 <= c0 <= 0xDF -> 0x80 <= c1 <= 0xBF ->
  Z.lor (Z.shiftl (Z.land c0 utf8.mask2) 6) (Z.land c1 utf8.maskx) = utf8.rune2 c0 c1.
Proof.
  intros H0 H1. rewrite land_mask2, land_maskx, Z.shiftl_mul_pow2 by lia.
  apply (lor_disjoint_mod_l _ _ 6); [lia | lia |].
  apply Z.mod_mul. lia.
Qed.

Lemma bits3 (c0 c1 c2 : Z) :
  0xE0 <= c0 <= 0xEF -> 0x80 <= c1 <= 0xBF -> 0x80 <= c2 <= 0xBF ->
  Z.lor (Z.lor (Z.shiftl (Z.land c0 utf8.mask3) 12)
               (Z.shiftl (Z.land c1 utf8.maskx) 6))
        (Z.land c2 utf8.maskx) = utf8.rune3 c0 c1 c2.
Proof.
  intros H0 H1 H2.
  rewrite land_mask3, !land_maskx, !Z.shiftl_mul_pow2 by lia.
  rewrite (lor_disjoint_mod_l ((c1 - 0x80) * 2 ^ 6) _ 12)
    by (try apply Z.mod_mul; lia).
  apply (lor_disjoint_mod_l _ _ 6); [lia | lia |].
  Z.div_mod_to_equations; lia.
Qed.

Lemma bits4 (c0 c1 c2 c3 : Z) :
  0xF0 <= c0 <= 0xF7 -> 0x80 <= c1 <= 0xBF -> 0x80 <= c2 <= 0xBF ->
  0x80 <= c3 <= 0xBF ->
  Z.lor (Z.lor (Z.lor (Z.shiftl (Z.land c0 utf8.mask4) 18)
                      (Z.shiftl (Z.land c1 utf8.maskx) 12))
               (Z.shiftl (Z.land c2 utf8.maskx) 6))
        (Z.land c3 utf8.maskx) = utf8.rune4 c0 c1 c2 c3.
Proof.
  intros H0 H1 H2 H3.
  rewrite land_mask4, !land_maskx, !Z.shiftl_mul_pow2 by lia.
  rewrite (lor_disjoint_mod_l ((c1 - 0x80) * 2 ^ 12) _ 18)
    by (try apply Z.mod_mul; lia).
  rewrite (lor_disjoint_mod_l ((c2 - 0x80) * 2 ^ 6) _ 12)
    by (try (Z.div_mod_to_equations); lia).
  apply (lor_disjoint_mod_l _ _ 6); [lia | lia |].
  Z.div_mod_to_equations; lia.
Qed.

Ltac utf8_constants :=
  unfold utf8.runeError, utf8.maxRune, utf8.surrogateMin, utf8.surrogateMax,
    utf8.t2, utf8.t3, utf8.t4, utf8.t5, utf8.tx, utf8.rune1Max, utf8.rune2Max,
    utf8.rune3Max, utf8.locb, utf8.hicb, utf8.between,
    utf8.rune2, utf8.rune3, utf8.rune4 in *.

(** Settle the comparisons in the goal that linear arithmetic decides. *)
Ltac decide_tests :=
  repeat match goal with
    | |- context [Z.ltb ?a ?b] =>
        first [ rewrite (proj2 (Z.ltb_lt a b)) by lia
              | rewrite (proj2 (Z.ltb_ge a b)) by lia ]
    | |- context [Z.leb ?a ?b] =>
        first [ rewrite (proj2 (Z.leb_le a b)) by lia
              | rewrite (proj2 (Z.leb_gt a b)) by lia ]
    end.

Lemma decode_1 (b : byte) (rest : list byte) :
  code b < 0x80 -> utf8.decoderune (b :: rest) = (code b, 1%nat).
Proof.
  intros H. unfold utf8.decoderune. decide_tests. reflexivity.
Qed.

Lemma decode_2 (b0 b1 : byte) (rest : list byte) :
  0xC2 <= code b0 <= 0xDF -> 0x80 <= code b1 <= 0xBF ->
  utf8.decoderune (b0 :: b1 :: rest) = (utf8.rune2 (code b0) (code b1), 2%nat).
Proof.
  intros H0 H1. unfold utf8.decoderune, utf8.cont.
  rewrite bits2 by lia. utf8_constants. decide_tests. reflexivity.
Qed.

Lemma decode_3 (b0 b1 b2 : byte) (rest : list byte) :
  0xE0 <= code b0 <= 0xEF -> 0x80 <= code b1 <= 0xBF -> 0x80 <= code b2 <= 0xBF ->
  0x7FF < utf8.rune3 (code b0) (code b1) (code b2) ->
  ~ 0xD800 <= utf8.rune3 (code b0) (code b1) (code b2) <= 0xDFFF ->
  utf8.decoderune (b0 :: b1 :: b2 :: rest)
  = (utf8.rune3 (code b0) (code b1) (code b2), 3%nat).
Proof.
  intros H0 H1 H2 Hlo Hsur. unfold utf8.decoderune, utf8.cont.
  rewrite bits3 by lia. utf8_constants. decide_tests. cbn [andb negb].
  destruct (Z.leb_spec 0xD800 ((code b0 - 0xE0) * 2 ^ 12
                               + (code b1 - 0x80) * 2 ^ 6 + (code b2 - 0x80)));
    decide_tests; reflexivity.
Qed.

Lemma decode_4 (b0 b1 b2 b3 : byte) (rest : list byte) :
  0xF0 <= code b0 <= 0xF7 -> 0x80 <= code b1 <= 0xBF -> 0x80 <= code b2 <= 0xBF ->
  0x80 <= code b3 <= 0xBF ->
  0xFFFF < utf8.rune4 (code b0) (code b1) (code b2) (code b3) <= 0x10FFFF ->
  utf8.decoderune (b0 :: b1 :: b2 :: b3 :: rest)
  = (utf8.rune4 (code b0) (code b1) (code b2) (code b3), 4%nat).
Proof.
  intros H0 H1 H2 H3 Hr. unfold utf8.decoderune, utf8.cont.
  rewrite bits4 by lia. utf8_constants. decide_tests. reflexivity.
Qed.

(** The bit operations of the encoder, as arithmetic. *)
Lemma lead_byte (lead x k : Z) :
  0 <= k -> lead mod 2 ^ k = 0 -> 0 <= x < 2 ^ k -> Z.lor lead x = lead + x.
Proof. intros. now apply (lor_disjoint_mod_l x lead k). Qed.

Lemma cont_byte (x : Z) :
  Z.lor utf8.tx (Z.land x utf8.maskx) = 0x80 + x mod 2 ^ 6.
Proof.
  rewrite low6. apply (lead_byte 0x80 _ 6); [lia | reflexivity |].
  apply Z.mod_pos_bound. lia.
Qed.

Lemma encode_1 (b : byte) : code b < 0x80 -> utf8.encoderune (code b) = [b].
Proof.
  intros H. pose proof (code_range b). unfold utf8.encoderune.
  rewrite Z.mod_small by lia. utf8_constants. decide_tests.
  now rewrite chr_code.
Qed.

Lemma encode_2 (b0 b1 : byte) :
  0xC2 <= code b0 <= 0xDF -> 0x80 <= code b1 <= 0xBF ->
  utf8.encoderune (utf8.rune2 (code b0) (code b1)) = [b0; b1].
Proof.
  intros H0 H1. unfold utf8.encoderune.
  rewrite cont_byte, Z.shiftr_div_pow2 by lia.
  rewrite (lead_byte utf8.t2 _ 5)
    by (try reflexivity; utf8_constants; Z.div_mod_to_equations; lia).
  utf8_constants. rewrite Z.mod_small by lia. decide_tests. cbn [orb].
  f_equal; [| f_equal]; apply chr_eq; Z.div_mod_to_equations; lia.
Qed.

Lemma encode_3 (b0 b1 b2 : byte) :
  0xE0 <= code b0 <= 0xEF -> 0x80 <= code b1 <= 0xBF -> 0x80 <= code b2 <= 0xBF ->
  0x7FF < utf8.rune3 (code b0) (code b1) (code b2) ->
  ~ 0xD800 <= utf8.rune3 (code b0) (code b1) (code b2) <= 0xDFFF ->
  utf8.encoderune (utf8.rune3 (code b0) (code b1) (code b2)) = [b0; b1; b2].
Proof.
  intros H0 H1 H2 Hlo Hsur. unfold utf8.encoderune.
  rewrite !cont_byte, !Z.shiftr_div_pow2 by lia.
  rewrite (lead_byte utf8.t3 (utf8.rune3 _ _ _ / 2 ^ 12) 4)
    by (try reflexivity; utf8_constants; Z.div_mod_to_equations; lia).
  utf8_constants. rewrite Z.mod_small by lia.
  decide_tests. cbn [orb].
  destruct (Z.leb_spec 0xD800 ((code b0 - 0xE0) * 2 ^ 12
                               + (code b1 - 0x80) * 2 ^ 6 + (code b2 - 0x80)));
    decide_tests; cbn [andb];
    (f_equal; [| f_equal; [| f_equal]]; apply chr_eq; Z.div_mod_to_equations; lia).
Qed.

Lemma encode_4 (b0 b1 b2 b3 : byte) :
  0xF0 <= code b0 <= 0xF7 -> 0x80 <= code b1 <= 0xBF -> 0x80 <= code b2 <= 0xBF ->
  0x80 <= code b3 <= 0xBF ->
  0xFFFF < utf8.rune4 (code b0) (code b1) (code b2) (code b3) <= 0x10FFFF ->
  utf8.encoderune (utf8.rune4 (code b0) (code b1) (code b2) (code b3))
  = [b0; b1; b2; b3].
Proof.
  intros H0 H1 H2 H3 Hr. unfold utf8.encoderune.
  rewrite !cont_byte, !Z.shiftr_div_pow2 by lia.
  rewrite (lead_byte utf8.t4 (utf8.rune4 _ _ _ _ / 2 ^ 18) 3)
    by (try reflexivity; utf8_constants; Z.div_mod_to_equations; lia).
  utf8_constants. rewrite Z.mod_small by lia.
  decide_tests. cbn [orb andb].
  f_equal; [| f_equal; [| f_equal; [| f_equal]]];
    apply chr_eq; Z.div_mod_to_equations; lia.
Qed.

(** A well-formed sequence decodes to a rune that encodes back to it; a
    rune below 0x80 is a sequence of one byte, the byte of that value. *)
Lemma wf_decode (u : list byte) :
  utf8.WellFormed u ->
  exists r b u',
    u = b :: u'
    /\ (forall rest, utf8.decoderune (u ++ rest) = (r, length u))
    /\ utf8.encoderune r = u
    /\ ((u' = [] /\ r = code b) \/ (0x80 <= r /\ 0x80 <= code b)).
Proof.
  destruct 1 as [b Hb
                | b0 b1 H0 H1
                | b0 b1 b2 H0 H1 H2 | b0 b1 b2 H0 H1 H2
                | b0 b1 b2 H0 H1 H2 | b0 b1 b2 H0 H1 H2
                | b0 b1 b2 b3 H0 H1 H2 H3 | b0 b1 b2 b3 H0 H1 H2 H3
                | b0 b1 b2 b3 H0 H1 H2 H3 ];
    unfold utf8.between in *.
  - exists (code b), b, []. split; [reflexivity |].
    split; [intros; apply decode_1; lia |].
    split; [apply encode_1; lia | left; auto].
  - exists (utf8.rune2 (code b0) (code b1)), b0, [b1]. split; [reflexivity |].
    split; [intros; apply decode_2; lia |].
    split; [apply encode_2; lia | right; unfold utf8.rune2; lia].
  - exists (utf8.rune3 (code b0) (code b1) (code b2)), b0, [b1; b2].
    split; [reflexivity |].
    split; [intros; apply decode_3; unfold utf8.rune3; lia |].
    split; [apply encode_3; unfold utf8.rune3; lia | right; unfold utf8.rune3; lia].
  - exists (utf8.rune3 (code b0) (code b1) (code b2)), b0, [b1; b2].
    split; [reflexivity |].
    split; [intros; apply decode_3; unfold utf8.rune3; lia |].
    split; [apply encode_3; unfold utf8.rune3; lia | right; unfold utf8.rune3; lia].
  - exists (utf8.rune3 (code b0) (code b1) (code b2)), b0, [b1; b2].
    split; [reflexivity |].
    split; [intros; apply decode_3; unfold utf8.rune3; lia |].
    split; [apply encode_3; unfold utf8.rune3; lia | right; unfold utf8.rune3; lia].
  - exists (utf8.rune3 (code b0) (code b1) (code b2)), b0, [b1; b2].
    split; [reflexivity |].
    split; [intros; apply decode_3; unfold utf8.rune3; lia |].
    split; [apply encode_3; unfold utf8.rune3; lia | right; unfold utf8.rune3; lia].
  - exists (utf8.rune4 (code b0) (code b1) (code b2) (code b3)), b0, [b1; b2; b3].
    split; [reflexivity |].
    split; [intros; apply decode_4; unfold utf8.rune4; lia |].
    split; [apply encode_4; unfold utf8.rune4; lia | right; unfold utf8.rune4; lia].
  - exists (utf8.rune4 (code b0) (code b1) (code b2) (code b3)), b0, [b1; b2; b3].
    split; [reflexivity |].
    split; [intros; apply decode_4; unfold utf8.rune4; lia |].
    split; [apply encode_4; unfold utf8.rune4; lia | right; unfold utf8.rune4; lia].
  - exists (utf8.rune4 (code b0) (code b1) (code b2) (code b3)), b0, [b1; b2; b3].
    split; [reflexivity |].
    split; [intros; apply decode_4; unfold utf8.rune4; lia |].
    split; [apply encode_4; unfold utf8.rune4; lia | right; unfold utf8.rune4; lia].
Qed.

(** ** remove0x *)

(** On valid UTF-8 the loop keeps the bytes of the string from the first
    rune that is neither '0' nor 'x'. *)
Lemma remove0x_loop_valid (s : list byte) :
  utf8.ValidBytes s ->
  forall (fuel : nat) (answer : list byte) (found : bool),
    (length s <= fuel)%nat ->
    starknet.remove0x_loop fuel s answer found
    = answer ++ (if found then s else Spec.skip0x s).
Proof.
  induction 1 as [| u s Hu Hs IH]; intros fuel answer found Hfuel.
  - destruct fuel, found; cbn; now rewrite app_nil_r.
  - destruct (wf_decode u Hu) as (r & b & u' & -> & Hdec & Henc & Hcase).
    destruct fuel as [| fuel]; [cbn in Hfuel; lia |].
    specialize (Hdec s). cbn [app] in Hdec |- *.
    cbn [starknet.remove0x_loop]. rewrite Hdec.
    change (b :: u' ++ s) with ((b :: u') ++ s) at 1.
    rewrite drop_app_length.
    rewrite IH by (rewrite length_app in Hfuel; cbn in Hfuel; lia).
    cbn [app Spec.skip0x]. unfold Spec.is0x.
    change (code "0"%char) with 48. change (code "x"%char) with 120.
    rewrite Henc.
    destruct Hcase as [[-> ->] | [Hr Hb]].
    + destruct found; cbn [orb app]; [now rewrite <- app_assoc |].
      destruct (code b =? 48); cbn [negb andb orb]; [reflexivity |].
      destruct (code b =? 120); cbn [negb andb orb]; [reflexivity |].
      now rewrite <- app_assoc.
    + rewrite (proj2 (Z.eqb_neq r 48)), (proj2 (Z.eqb_neq r 120)) by lia.
      rewrite (proj2 (Z.eqb_neq (code b) 48)),
        (proj2 (Z.eqb_neq (code b) 120)) by lia.
      rewrite orb_true_r. cbn [orb negb andb].
      destruct found; now rewrite <- app_assoc.
Qed.

(** C10 (as stated) fails on a string that is not valid UTF-8: the loop
    ranges over runes, and the byte 0xFF is read as the rune U+FFFD, whose
    three bytes are appended in its place. *)
Lemma C10_counterexample_invalid_utf8_is_replaced :
  ~ (forall s : string, starknet.remove0x s = Spec.remove0x s).
Proof.
  intros claim. specialize (claim (String "255"%char "")).
  vm_compute in claim. discriminate claim.
Qed.

(** C10 (amended).  For every string [s] that is valid UTF-8, [remove0x]
    returns the suffix of [s] that begins at the first character that is
    neither '0' nor 'x', and "0" when there is no such character. *)
Theorem C10_remove0x_strips_leading_0_and_x (s : string) :
  utf8.ValidString s -> starknet.remove0x s = Spec.remove0x s.
Proof.
  intros Hv. unfold starknet.remove0x, Spec.remove0x.
  rewrite remove0x_loop_valid by (auto; lia). cbn [app].
  destruct (Spec.skip0x (bytes_of_string s)); reflexivity.
Qed.

Lemma C10_remove0x_witness :
  starknet.remove0x (String "0" (String "x" (String "0" (String "195" (String "169"
                       (String "0" (String "x" "")))))))
  = Spec.remove0x (String "0" (String "x" (String "0" (String "195" (String "169"
                     (String "0" (String "x" ""))))))).
Proof.
  apply C10_remove0x_strips_leading_0_and_x.
  unfold utf8.ValidString. cbn.
  apply (utf8.valid_app [_]); [apply utf8.wf_ascii; vm_compute; split; discriminate |].
  apply (utf8.valid_app [_]); [apply utf8.wf_ascii; vm_compute; split; discriminate |].
  apply (utf8.valid_app [_]); [apply utf8.wf_ascii; vm_compute; split; discriminate |].
  apply (utf8.valid_app [_; _]);
    [apply utf8.wf_2; vm_compute; split; discriminate |].
  apply (utf8.valid_app [_]); [apply utf8.wf_ascii; vm_compute; split; discriminate |].
  apply (utf8.valid_app [_]); [apply utf8.wf_ascii; vm_compute; split; discriminate |].
  apply utf8.valid_nil.
Defined.

(* ===================================================================== *)
(** * Further properties                                                  *)
(* ===================================================================== *)

(** ** remove0x on arbitrary strings *)

Lemma bytes_string_bytes (l : list byte) :
  bytes_of_string (string_of_bytes l) = l.
Proof. apply list_ascii_of_string_of_list_ascii. Qed.

Lemma is0x_code (b : byte) : Spec.is0x b = runtime.is0xRune (code b).
Proof. reflexivity. Qed.

(** The loop of [remove0x] appends the encodings of the runes of [s],
    from the first rune that is neither '0' nor 'x'. *)
Lemma remove0x_loop_runes (fuel : nat) (s answer : list byte) (found : bool) :
  starknet.remove0x_loop fuel s answer found
  = answer ++ concat (map utf8.encoderune
                          (if found then runtime.runes fuel s
                           else runtime.skip0xRunes (runtime.runes fuel s))).
Proof.
  revert s answer found.
  induction fuel as [| fuel IH]; intros s answer found.
  - cbn. destruct found; now rewrite app_nil_r.
  - destruct s as [| b rest]; [cbn; destruct found; now rewrite app_nil_r |].
    cbn [starknet.remove0x_loop runtime.runes].
    destruct (utf8.decoderune (b :: rest)) as [char width].
    rewrite IH. cbn [runtime.skip0xRunes]. unfold runtime.is0xRune.
    rewrite <- negb_orb.
    destruct found; cbn [orb map concat]; [now rewrite <- app_assoc |].
    destruct ((char =? code "0"%char) || (char =? code "x"%char));
      cbn [negb map concat]; [reflexivity | now rewrite <- app_assoc].
Qed.

(** What the decoder yields: a scalar value or [runeError], and a rune
    below 0x80 only for the byte of that value. *)
Lemma decoderune_range (b : byte) (rest : list byte) (r : Z) (w : nat) :
  utf8.decoderune (b :: rest) = (r, w) ->
  0 <= r <= 0x10FFFF /\ (r < 0x80 -> r = code b /\ w = 1%nat).
Proof.
  pose proof (code_range b) as Hb.
  unfold utf8.decoderune.
  destruct (code b <? 0x80) eqn:E0.
  { intros [= <- <-]. apply Z.ltb_lt in E0. lia. }
  apply Z.ltb_ge in E0.
  assert (Herr : forall r w, (utf8.runeError, 1%nat) = (r, w) ->
                 0 <= r <= 0x10FFFF /\ (r < 0x80 -> r = code b /\ w = 1%nat)).
  { intros ? ? [= <- <-]. unfold utf8.runeError. lia. }
  destruct ((utf8.t2 <=? code b) && (code b <? utf8.t3)) eqn:E2.
  { apply andb_true_iff in E2 as [H1%Z.leb_le H2%Z.ltb_lt].
    destruct rest as [| s1 rest]; [apply Herr |].
    destruct (utf8.cont s1) eqn:C1; [| apply Herr].
    apply andb_true_iff in C1 as [C1a%Z.leb_le C1b%Z.leb_le].
    utf8_constants. rewrite bits2 by lia. unfold utf8.rune2.
    cbn [andb].
    destruct (Z.ltb_spec 127 ((code b - 192) * 2 ^ 6 + (code s1 - 128)));
      [intros [= <- <-]; lia | apply Herr]. }
  destruct ((utf8.t3 <=? code b) && (code b <? utf8.t4)) eqn:E3.
  { apply andb_true_iff in E3 as [H1%Z.leb_le H2%Z.ltb_lt].
    destruct rest as [| s1 [| s2 rest]]; [apply Herr | apply Herr |].
    destruct (utf8.cont s1) eqn:C1; [| apply Herr].
    destruct (utf8.cont s2) eqn:C2; [| apply Herr].
    apply andb_true_iff in C1 as [C1a%Z.leb_le C1b%Z.leb_le].
    apply andb_true_iff in C2 as [C2a%Z.leb_le C2b%Z.leb_le].
    utf8_constants. rewrite bits3 by lia. unfold utf8.rune3.
    cbn [andb].
    match goal with |- context [if ?c then _ else _] => destruct c eqn:Ec end;
      [| apply Herr].
    apply andb_true_iff in Ec as [Ec%Z.ltb_lt _].
    intros [= <- <-]. lia. }
  destruct ((utf8.t4 <=? code b) && (code b <? utf8.t5)) eqn:E4; [| apply Herr].
  apply andb_true_iff in E4 as [H1%Z.leb_le H2%Z.ltb_lt].
  destruct rest as [| s1 [| s2 [| s3 rest]]];
    [apply Herr | apply Herr | apply Herr |].
  destruct (utf8.cont s1) eqn:C1; [| apply Herr].
  destruct (utf8.cont s2) eqn:C2; [| apply Herr].
  destruct (utf8.cont s3) eqn:C3; [| apply Herr].
  apply andb_true_iff in C1 as [C1a%Z.leb_le C1b%Z.leb_le].
  apply andb_true_iff in C2 as [C2a%Z.leb_le C2b%Z.leb_le].
  apply andb_true_iff in C3 as [C3a%Z.leb_le C3b%Z.leb_le].
  utf8_constants. rewrite bits4 by lia. unfold utf8.rune4.
  cbn [andb].
  match goal with |- context [if ?c then _ else _] => destruct c eqn:Ec end;
    [| apply Herr].
  apply andb_true_iff in Ec as [Ea%Z.ltb_lt Eb%Z.leb_le].
  intros [= <- <-]. lia.
Qed.

Lemma between_chr (lo hi x : Z) :
  0 <= lo -> hi < 256 -> lo <= x <= hi -> utf8.between lo hi (chr x).
Proof.
  intros. unfold utf8.between. rewrite code_chr, Z.mod_small by lia. lia.
Qed.

Lemma is0x_chr_high (x : Z) : 0x80 <= x < 256 -> Spec.is0x (chr x) = false.
Proof.
  intros H. unfold Spec.is0x. rewrite code_chr, Z.mod_small by lia.
  change (code "0"%char) with 48. change (code "x"%char) with 120.
  rewrite (proj2 (Z.eqb_neq x 48)), (proj2 (Z.eqb_neq x 120)) by lia.
  reflexivity.
Qed.

Lemma is0xRune_high (r : Z) : 0x80 <= r -> runtime.is0xRune r = false.
Proof.
  intros H. unfold runtime.is0xRune.
  change (code "0"%char) with 48. change (code "x"%char) with 120.
  rewrite (proj2 (Z.eqb_neq r 48)), (proj2 (Z.eqb_neq r 120)) by lia.
  reflexivity.
Qed.

(** The encoding of a rune is a well-formed sequence, and it starts with
    '0' or 'x' only when the rune is that character. *)
Lemma encoderune_spec (r : Z) :
  0 <= r <= 0x10FFFF ->
  utf8.WellFormed (utf8.encoderune r)
  /\ exists b u, utf8.encoderune r = b :: u /\ Spec.is0x b = runtime.is0xRune r.
Proof.
  intros Hr. unfold utf8.encoderune.
  rewrite !cont_byte, !Z.shiftr_div_pow2 by lia.
  rewrite Z.mod_small by lia.
  destruct (Z_le_gt_dec r 0x7F) as [H1 | H1].
  { utf8_constants. decide_tests. split.
    - apply utf8.wf_ascii. apply between_chr; lia.
    - eexists _, _. split; [reflexivity |].
      unfold Spec.is0x. now rewrite code_chr, Z.mod_small by lia. }
  destruct (Z_le_gt_dec r 0x7FF) as [H2 | H2].
  { rewrite (lead_byte utf8.t2 _ 5)
      by (try reflexivity; utf8_constants; Z.div_mod_to_equations; lia).
    utf8_constants. decide_tests. split.
    - apply utf8.wf_2; apply between_chr; Z.div_mod_to_equations; lia.
    - eexists _, _. split; [reflexivity |].
      rewrite is0x_chr_high, is0xRune_high by (Z.div_mod_to_equations; lia).
      reflexivity. }
  destruct (Z_le_gt_dec r 0xFFFF) as [H3 | H3].
  { destruct (Z_le_gt_dec 0xD800 r) as [H4 | H4];
      [destruct (Z_le_gt_dec r 0xDFFF) as [H5 | H5] |].
    - (* a surrogate: the replacement character *)
      utf8_constants. decide_tests. cbn [orb andb]. split.
      + apply utf8.wf_3_ee; vm_compute; split; discriminate.
      + eexists _, _. split; [reflexivity |].
        rewrite is0xRune_high by lia. reflexivity.
    - rewrite (lead_byte utf8.t3 (r / 2 ^ 12) 4)
        by (try reflexivity; utf8_constants; Z.div_mod_to_equations; lia).
      utf8_constants. decide_tests. cbn [orb andb]. split.
      + apply utf8.wf_3_ee; apply between_chr; Z.div_mod_to_equations; lia.
      + eexists _, _. split; [reflexivity |].
        rewrite is0x_chr_high, is0xRune_high by (Z.div_mod_to_equations; lia).
        reflexivity.
    - rewrite (lead_byte utf8.t3 (r / 2 ^ 12) 4)
        by (try reflexivity; utf8_constants; Z.div_mod_to_equations; lia).
      utf8_constants. decide_tests. cbn [orb andb]. split.
      + destruct (Z_lt_ge_dec r 0x1000) as [Ha | Ha];
          [| destruct (Z_lt_ge_dec r 0xD000) as [Hb | Hb]].
        * apply utf8.wf_3_e0; apply between_chr; Z.div_mod_to_equations; lia.
        * apply utf8.wf_3_e1; apply between_chr; Z.div_mod_to_equations; lia.
        * apply utf8.wf_3_ed; apply between_chr; Z.div_mod_to_equations; lia.
      + eexists _, _. split; [reflexivity |].
        rewrite is0x_chr_high, is0xRune_high by (Z.div_mod_to_equations; lia).
        reflexivity. }
  rewrite (lead_byte utf8.t4 (r / 2 ^ 18) 3)
    by (try reflexivity; utf8_constants; Z.div_mod_to_equations; lia).
  utf8_constants. decide_tests. cbn [orb andb]. split.
  - destruct (Z_lt_ge_dec r 0x40000) as [Ha | Ha];
      [| destruct (Z_lt_ge_dec r 0x100000) as [Hb | Hb]].
    + apply utf8.wf_4_f0; apply between_chr; Z.div_mod_to_equations; lia.
    + apply utf8.wf_4_f1; apply between_chr; Z.div_mod_to_equations; lia.
    + apply utf8.wf_4_f4; apply between_chr; Z.div_mod_to_equations; lia.
  - eexists _, _. split; [reflexivity |].
    rewrite is0x_chr_high, is0xRune_high by (Z.div_mod_to_equations; lia).
    reflexivity.
Qed.

Lemma runes_scalar (fuel : nat) (s : list byte) :
  Forall runtime.scalar (runtime.runes fuel s).
Proof.
  revert s. induction fuel as [| fuel IH]; intros s; [constructor |].
  destruct s as [| b rest]; [constructor |].
  cbn [runtime.runes].
  destruct (utf8.decoderune (b :: rest)) as [r w] eqn:E.
  constructor; [| apply IH].
  now apply decoderune_range in E as [E _].
Qed.

Lemma skip0xRunes_scalar (rs : list Z) :
  Forall runtime.scalar rs -> Forall runtime.scalar (runtime.skip0xRunes rs).
Proof.
  induction 1 as [| r rs Hr Hrs IH]; cbn; [constructor |].
  destruct (runtime.is0xRune r); [exact IH | now constructor].
Qed.

Lemma skip0xRunes_head (rs : list Z) (r : Z) (rest : list Z) :
  runtime.skip0xRunes rs = r :: rest -> runtime.is0xRune r = false.
Proof.
  induction rs as [| r0 rs IH]; cbn; [discriminate |].
  destruct (runtime.is0xRune r0) eqn:E; [exact IH |].
  now intros [= <- <-].
Qed.

Lemma encoded_valid (rs : list Z) :
  Forall runtime.scalar rs -> utf8.ValidBytes (concat (map utf8.encoderune rs)).
Proof.
  induction 1 as [| r rs Hr Hrs IH]; cbn; [constructor |].
  apply utf8.valid_app; [now apply encoderune_spec | exact IH].
Qed.

Lemma encoded_nil (rs : list Z) :
  Forall runtime.scalar rs -> concat (map utf8.encoderune rs) = [] -> rs = [].
Proof.
  destruct 1 as [| r rs Hr Hrs]; [reflexivity |]. cbn.
  destruct (encoderune_spec r Hr) as (_ & b & u & -> & _). discriminate.
Qed.

(** The answer of [remove0x] before the test for the empty string. *)
Lemma remove0x_answer (b : list byte) :
  starknet.remove0x_loop (length b) b [] false
  = concat (map utf8.encoderune
                (runtime.skip0xRunes (runtime.runes (length b) b))).
Proof. now rewrite remove0x_loop_runes. Qed.

Lemma answer_valid (b : list byte) :
  utf8.ValidBytes (starknet.remove0x_loop (length b) b [] false).
Proof.
  rewrite remove0x_answer. apply encoded_valid, skip0xRunes_scalar, runes_scalar.
Qed.

(** A non-empty answer begins with a byte that is neither '0' nor 'x'. *)
Lemma answer_head (b : list byte) (c : byte) (rest : list byte) :
  starknet.remove0x_loop (length b) b [] false = c :: rest ->
  Spec.is0x c = false.
Proof.
  rewrite remove0x_answer.
  pose proof (skip0xRunes_scalar _ (runes_scalar (length b) b)) as Hs.
  destruct (runtime.skip0xRunes (runtime.runes (length b) b)) as [| r rs] eqn:E;
    [discriminate |].
  apply skip0xRunes_head in E. apply Forall_cons_1 in Hs as [Hr _].
  destruct (encoderune_spec r Hr) as (_ & c' & u & Henc & Hc).
  cbn. rewrite Henc. intros [= <- _]. congruence.
Qed.

Lemma skip0xRunes_nil_iff (s : list byte) :
  runtime.skip0xRunes (runtime.runes (length s) s) = []
  <-> Forall (fun b => Spec.is0x b = true) s.
Proof.
  induction s as [| b rest IH]; [cbn; split; auto |].
  cbn [length runtime.runes].
  destruct (utf8.decoderune (b :: rest)) as [r w] eqn:E.
  cbn [runtime.skip0xRunes].
  destruct (runtime.is0xRune r) eqn:Er.
  - assert (Hlow : r < 0x80).
    { unfold runtime.is0xRune in Er.
      change (code "0"%char) with 48 in Er. change (code "x"%char) with 120 in Er.
      apply orb_true_iff in Er as [Er%Z.eqb_eq | Er%Z.eqb_eq]; lia. }
    apply decoderune_range in E as [_ E]. destruct (E Hlow) as [-> ->].
    cbn [drop]. rewrite IH, Forall_cons. rewrite is0x_code. tauto.
  - split; [discriminate |].
    intros [Hb _]%Forall_cons. exfalso.
    assert (Hlow : code b < 0x80).
    { unfold Spec.is0x in Hb.
      change (code "0"%char) with 48 in Hb. change (code "x"%char) with 120 in Hb.
      apply orb_true_iff in Hb as [Hb%Z.eqb_eq | Hb%Z.eqb_eq]; lia. }
    rewrite decode_1 in E by exact Hlow. injection E as <- <-.
    rewrite is0x_code in Hb. congruence.
Qed.

(** Whatever the input, [remove0x] returns a non-empty string of valid
    UTF-8. *)
Theorem remove0x_returns_valid_nonempty (s : string) :
  utf8.ValidString (starknet.remove0x s) /\ starknet.remove0x s <> "".
Proof.
  unfold starknet.remove0x.
  pose proof (answer_valid (bytes_of_string s)) as Hv.
  destruct (starknet.remove0x_loop _ _ [] false) as [| c rest];
    cbn [length Nat.eqb].
  - split; [| discriminate].
    apply (utf8.valid_app ["0"%char] []); [| constructor].
    apply utf8.wf_ascii. vm_compute. split; discriminate.
  - split; [| discriminate].
    unfold utf8.ValidString. now rewrite bytes_string_bytes.
Qed.

(** [remove0x] returns "0" exactly for the strings made of '0' and 'x'
    only. *)
Theorem remove0x_is_zero_iff (s : string) :
  starknet.remove0x s = "0"
  <-> Forall (fun b => runtime.is0xRune (code b) = true) (bytes_of_string s).
Proof.
  change (starknet.remove0x s = "0"
          <-> Forall (fun b => Spec.is0x b = true) (bytes_of_string s)).
  rewrite <- skip0xRunes_nil_iff. unfold starknet.remove0x.
  pose proof (answer_head (bytes_of_string s)) as Hh.
  pose proof (remove0x_answer (bytes_of_string s)) as Ha.
  destruct (starknet.remove0x_loop _ _ [] false) as [| c rest];
    cbn [length Nat.eqb].
  - split; [intros _ | reflexivity].
    symmetry in Ha. apply encoded_nil in Ha; [exact Ha |].
    apply skip0xRunes_scalar, runes_scalar.
  - specialize (Hh c rest eq_refl). split.
    + cbn. intros [= -> _]. discriminate Hh.
    + intros E. rewrite E in Ha. discriminate Ha.
Qed.

(** [remove0x] is idempotent: its result is already stripped. *)
Theorem remove0x_idempotent (s : string) :
  starknet.remove0x (starknet.remove0x s) = starknet.remove0x s.
Proof.
  unfold starknet.remove0x at 2 3.
  pose proof (answer_valid (bytes_of_string s)) as Hv.
  pose proof (answer_head (bytes_of_string s)) as Hh.
  destruct (starknet.remove0x_loop _ _ [] false) as [| c rest]; cbn [length Nat.eqb].
  - reflexivity.
  - specialize (Hh c rest eq_refl).
    unfold starknet.remove0x. rewrite bytes_string_bytes.
    rewrite remove0x_loop_valid by (auto; lia).
    cbn [app Spec.skip0x]. rewrite Hh. reflexivity.
Qed.

Lemma remove0x_skips_0x (c : ascii) (s : string) :
  Spec.is0x c = true -> starknet.remove0x (String c s) = starknet.remove0x s.
Proof.
  intros Hc. unfold starknet.remove0x.
  change (bytes_of_string (String c s)) with (c :: bytes_of_string s).
  cbn [length starknet.remove0x_loop].
  assert (Hlow : code c < 0x80).
  { unfold Spec.is0x in Hc.
    change (code "0"%char) with 48 in Hc. change (code "x"%char) with 120 in Hc.
    apply orb_true_iff in Hc as [Hc%Z.eqb_eq | Hc%Z.eqb_eq]; lia. }
  rewrite decode_1 by exact Hlow.
  rewrite <- negb_orb. unfold Spec.is0x in Hc. rewrite Hc.
  reflexivity.
Qed.

(** Leading '0' and 'x' characters do not matter: a prefix made of them
    can be added or removed without changing the result. *)
Theorem remove0x_ignores_0x_prefix (p s : string) :
  Forall (fun b => runtime.is0xRune (code b) = true) (bytes_of_string p) ->
  starknet.remove0x (p +:+ s) = starknet.remove0x s.
Proof.
  induction p as [| c p IH]; [reflexivity |].
  change (bytes_of_string (String c p)) with (c :: bytes_of_string p).
  intros [Hc Hp]%Forall_cons.
  change (String c p +:+ s) with (String c (p +:+ s)).
  rewrite remove0x_skips_0x by exact Hc. now apply IH.
Qed.

Lemma remove0x_ignores_0x_prefix_witness :
  starknet.remove0x ("0x00" +:+ "12ab") = starknet.remove0x "12ab".
Proof.
  apply (remove0x_ignores_0x_prefix "0x00" "12ab").
  repeat constructor.
Defined.

(** ** The checkpoint, further *)

Lemma Synchronizer_checkpoint_roundtrip_witness :
  Synchronizer.latestBlockQueried
    (fst (Synchronizer.updateLatestBlockQueried (∅ : db.MemDB) 5853000))
  = Ok 5853000.
Proof.
  apply (Synchronizer_checkpoint_roundtrip db.MemDB ∅ _ 5853000).
  - unfold is_int64. lia.
  - reflexivity.
Defined.

(** Loading the checkpoint fails exactly when the store fails or holds,
    under the key, a value that is not nil and has fewer than eight bytes;
    a value of eight bytes or more is read from its first eight bytes.
    Both revisions of [latestBlockQueried] behave so. *)
Theorem latestBlockQueried_fails_iff
    (DB : Type) `{D : db.Databaser DB} (d : DB) :
  ((exists e, Synchronizer.latestBlockQueried d = Err e)
   <-> (exists e, db.Get d starknet.latestBlockSynced = Err e)
       \/ (exists v, db.Get d starknet.latestBlockSynced = Ok (Some v)
                     /\ (length v < 8)%nat))
  /\ starknet.latestBlockQueried d = Synchronizer.latestBlockQueried d
  /\ (forall v, db.Get d starknet.latestBlockSynced = Ok (Some v) ->
                (8 <= length v)%nat ->
                Synchronizer.latestBlockQueried d = Ok (int64 (Uint64 (take 8 v)))).
Proof.
  split; [| split; [reflexivity |]].
  - unfold Synchronizer.latestBlockQueried, ReadUint64.
    destruct (db.Get d starknet.latestBlockSynced) as [[v |] | e].
    + destruct v as [| b v].
      * split; [intros _; right; exists []; split; [reflexivity | cbn; lia] | eauto].
      * destruct (Nat.ltb_spec (length (b :: v)) 8) as [Hlt | Hge].
        -- split; [intros _; right; eauto | eauto].
        -- split; [intros [e [=]] |].
           intros [[e [=]] | (v' & [= <-] & Hlen)]. lia.
    + split; [intros [e [=]] |].
      intros [[e [=]] | (v' & [=] & _)].
    + split; [eauto | eauto].
  - intros v Hget Hlen. unfold Synchronizer.latestBlockQueried, ReadUint64.
    rewrite Hget.
    destruct v as [| b0 [| b1 [| b2 [| b3 [| b4 [| b5 [| b6 [| b7 v]]]]]]]];
      cbn in Hlen; try lia.
    destruct (Nat.ltb_spec (length (b0 :: b1 :: b2 :: b3 :: b4 :: b5 :: b6 :: b7 :: v)) 8)
      as [Hlt | _]; [cbn in Hlt; lia |].
    reflexivity.
Qed.

(** ** The backfill, further *)

Section BackfillProperties.

Import Synchronizer.

(** The inner loop sends the events of the logs in their order, and skips
    the logs that do not decode. *)
Theorem sendLogs_sends_decoded_in_order
    (contracts : gmap Z contractsStruct) (starknetLogs : list types.Log)
    (eventChan : list eventStruct) :
  sendLogs contracts starknetLogs eventChan
  = eventChan ++ omap (Backfill.eventOf contracts) starknetLogs.
Proof.
  revert eventChan.
  induction starknetLogs as [| vLog rest IH]; intros eventChan; cbn.
  - now rewrite app_nil_r.
  - unfold Backfill.eventOf.
    destruct (abi.UnpackIntoMap _ _ _) as [event | e]; rewrite IH.
    + now rewrite <- app_assoc.
    + reflexivity.
Qed.

Lemma initialBlock_range (client : ethclient.Client) :
  0 <= initialBlockForStarknetContract client <= 13627000.
Proof.
  unfold initialBlockForStarknetContract,
    starknet.blockOfStarknetDeploymentContractMainnet,
    starknet.blockOfStarknetDeploymentContractGoerli.
  destruct (ethclient.ChainID client) as [id | e]; [| lia].
  destruct (int64 id =? 1); lia.
Qed.

Lemma next_window (i : Z) :
  0 <= i < 2 ^ 63 -> uint64 (i + uint64 starknet.MaxChunk) = i + 10000.
Proof.
  intros Hi. unfold uint64, starknet.MaxChunk.
  Z.div_mod_to_equations; lia.
Qed.

Lemma int64_small (x : Z) : 0 <= x < 2 ^ 63 -> int64 x = x.
Proof. intros H. unfold int64. Z.div_mod_to_equations; lia. Qed.

(** The loop ends, whatever the client answers: a window is queried for
    every 10000 blocks below the head, and one more turn ends the loop. *)
Lemma backfillLoop_ends
    (client : ethclient.Client) (contracts : gmap Z contractsStruct)
    (latest : Z) (fuel : nat) (i : Z) (eventChan : list eventStruct) :
  0 <= i -> latest < 2 ^ 63 ->
  Z.max 0 ((latest - i + 9999) / 10000) < Z.of_nat fuel ->
  exists events, backfillLoop client contracts fuel latest i eventChan = Some events.
Proof.
  intros Hi Hlatest. revert i eventChan Hi.
  induction fuel as [| fuel IH]; intros i eventChan Hi Hfuel; [lia |].
  cbn [backfillLoop].
  destruct (Z.ltb_spec i latest) as [Hlt | Hge]; [| eauto].
  destruct (ethclient.FilterLogs client _) as [logs | e]; [| eauto].
  rewrite next_window by lia. apply IH; [lia |].
  revert Hfuel. Z.div_mod_to_equations; lia.
Qed.

(** The backfill of [loadEvents] ends, whatever the client answers to the
    queries: for a head below 2^63, a window is queried for every 10000
    blocks up to the head at most, and the events sent are returned. *)
Theorem loadEvents_backfill_ends
    (client : ethclient.Client) (contracts : gmap Z contractsStruct) (latest : Z) :
  ethclient.BlockNumber client = Ok latest ->
  0 <= latest < 2 ^ 63 ->
  exists events,
    loadEvents_backfill client contracts (Z.to_nat (latest / 10000) + 2)
    = Ok (Some events).
Proof.
  intros Hb Hlatest. unfold loadEvents_backfill. rewrite Hb.
  pose proof (initialBlock_range client) as Hf.
  destruct (backfillLoop_ends client contracts latest
              (Z.to_nat (latest / 10000) + 2)
              (uint64 (initialBlockForStarknetContract client)) [])
    as [events ->]; [| lia | | eauto].
  - unfold uint64. Z.div_mod_to_equations; lia.
  - unfold uint64. rewrite (Z.mod_small _ (2 ^ 64)) by lia.
    rewrite Nat2Z.inj_add, Z2Nat.id by (Z.div_mod_to_equations; lia).
    Z.div_mod_to_equations; lia.
Qed.

Lemma loadEvents_backfill_ends_witness :
  exists events,
    loadEvents_backfill (Backfill.offline 1 13650000) Scenario.contracts
                        (Z.to_nat (13650000 / 10000) + 2)
    = Ok (Some events).
Proof.
  apply (loadEvents_backfill_ends (Backfill.offline 1 13650000)
                                  Scenario.contracts 13650000).
  - reflexivity.
  - lia.
Defined.

Lemma backfillLoop_extends
    (client : ethclient.Client) (contracts : gmap Z contractsStruct)
    (fuel : nat) (latest i : Z) (eventChan events : list eventStruct) :
  backfillLoop client contracts fuel latest i eventChan = Some events ->
  exists more, events = eventChan ++ more.
Proof.
  revert i eventChan.
  induction fuel as [| fuel IH]; intros i eventChan; cbn [backfillLoop];
    [discriminate |].
  destruct (i <? latest); [| intros [= <-]; exists []; now rewrite app_nil_r].
  destruct (ethclient.FilterLogs client _) as [logs | e];
    [| intros [= <-]; exists []; now rewrite app_nil_r].
  intros H. apply IH in H as [more ->].
  rewrite sendLogs_sends_decoded_in_order, <- app_assoc. eauto.
Qed.

(** A watched log in the window that starts at [i] is selected by the
    query of that window. *)
Lemma window_selects
    (contracts : gmap Z contractsStruct) (i : Z) (vLog : types.Log) :
  0 <= i < 2 ^ 62 ->
  Backfill.watched contracts vLog ->
  i <= types.BlockNumber vLog <= i + 10000 ->
  ethereum.selects (windowQuery contracts i) vLog = true.
Proof.
  intros Hi [[c Hc] (t & rest & Ht & Hin)] Hb.
  unfold ethereum.selects, ethereum.inRange, ethereum.inAddresses, windowQuery.
  cbn [ethereum.FromBlock ethereum.ToBlock ethereum.Addresses ethereum.Topics].
  rewrite next_window, !int64_small by lia.
  rewrite (proj2 (Z.leb_le _ _)), (proj2 (Z.leb_le _ _)) by lia.
  assert (Ha : types.Address vLog ∈ addresses contracts).
  { unfold addresses. apply list_elem_of_fmap.
    exists (types.Address vLog, c). split; [reflexivity |].
    now apply elem_of_map_to_list. }
  destruct (addresses contracts) as [| a0 addrs] eqn:Ea;
    [now apply elem_of_nil in Ha |].
  rewrite bool_decide_eq_true_2 by exact Ha.
  rewrite Ht. unfold watchedTopics in *. cbn [ethereum.topicsMatch andb].
  now rewrite bool_decide_eq_true_2 by exact Hin.
Qed.

Lemma backfillLoop_complete
    (chainID head : Z) (logs : list types.Log) (txs : gmap Z (list byte))
    (contracts : gmap Z contractsStruct) (latest : Z)
    (vLog : types.Log) (ev : eventStruct) :
  latest < 2 ^ 62 ->
  vLog ∈ logs ->
  Backfill.watched contracts vLog ->
  Backfill.eventOf contracts vLog = Some ev ->
  forall (fuel : nat) (i : Z) (eventChan events : list eventStruct),
    0 <= i ->
    i <= types.BlockNumber vLog < latest ->
    backfillLoop (ethclient.synthetic chainID head logs txs) contracts
                 fuel latest i eventChan = Some events ->
    ev ∈ events.
Proof.
  intros Hlatest Hin Hw Hev.
  induction fuel as [| fuel IH]; intros i eventChan events Hi Hb;
    cbn [backfillLoop]; [discriminate |].
  rewrite (proj2 (Z.ltb_lt i latest)) by lia.
  cbn [ethclient.FilterLogs ethclient.synthetic].
  rewrite next_window by lia.
  destruct (Z_le_gt_dec (types.BlockNumber vLog) (i + 10000)) as [Hle | Hgt].
  - intros H. apply backfillLoop_extends in H as [more ->].
    rewrite sendLogs_sends_decoded_in_order.
    apply elem_of_app; left. apply elem_of_app; right.
    apply list_elem_of_omap. exists vLog. split; [| exact Hev].
    apply list_elem_of_filter. split; [| exact Hin].
    apply window_selects; [lia | exact Hw | lia].
  - apply IH; lia.
Qed.

(** No log is missed: on a source that answers every query, every watched
    log that decodes and lies between the first block of the backfill and
    the head has its event among the events sent. *)
Theorem loadEvents_backfill_misses_no_log
    (chainID head : Z) (logs : list types.Log) (txs : gmap Z (list byte))
    (contracts : gmap Z contractsStruct) (fuel : nat)
    (events : list eventStruct) (vLog : types.Log) (ev : eventStruct) :
  head < 2 ^ 62 ->
  loadEvents_backfill (ethclient.synthetic chainID head logs txs) contracts fuel
  = Ok (Some events) ->
  vLog ∈ logs ->
  Backfill.watched contracts vLog ->
  initialBlockForStarknetContract (ethclient.synthetic chainID head logs txs)
  <= types.BlockNumber vLog < head ->
  Backfill.eventOf contracts vLog = Some ev ->
  ev ∈ events.
Proof.
  intros Hhead Hrun Hin Hw Hb Hev.
  unfold loadEvents_backfill in Hrun.
  cbn [ethclient.BlockNumber ethclient.synthetic] in Hrun.
  injection Hrun as Hrun.
  pose proof (initialBlock_range (ethclient.synthetic chainID head logs txs)) as Hf.
  unfold uint64 in Hrun. rewrite Z.mod_small in Hrun by lia.
  eapply backfillLoop_complete; eauto; lia.
Qed.

Lemma loadEvents_backfill_misses_no_log_witness :
  Scenario.boundaryEvent ∈ [Scenario.boundaryEvent; Scenario.boundaryEvent].
Proof.
  apply (loadEvents_backfill_misses_no_log 5 5870000 [Scenario.boundaryLog] ∅
           Scenario.contracts 3
           [Scenario.boundaryEvent; Scenario.boundaryEvent]
           Scenario.boundaryLog Scenario.boundaryEvent).
  - lia.
  - vm_compute. reflexivity.
  - apply list_elem_of_singleton. reflexivity.
  - split.
    + apply is_Some_alt. vm_compute. exact I.
    + eexists _, _. split; [reflexivity |].
      apply list_elem_of_In. unfold watchedTopics. cbn. auto.
  - vm_compute. split; [discriminate | reflexivity].
  - vm_compute. reflexivity.
Defined.

End BackfillProperties.

(** ** Fact resolution, further *)

Section FactResolutionFurther.

Import Synchronizer.

(** What one page needs to be collected: its carrying transaction is in
    the dictionary and the node returns the transaction. *)
Lemma collectPages_returns_iff (client : ethclient.Client) (s : Synchronizer)
    (hashes : list Z) (acc pages : list (list byte)) :
  collectPages client s hashes acc = Returned (Ok pages)
  <-> exists fetched,
        pages = acc ++ fetched
        /\ Forall2 (fun h page =>
                      exists tx, MemoryPageHash s !! common.Hex h = Some tx
                                 /\ ethclient.TransactionByHash client tx = Ok page)
                   hashes fetched.
Proof.
  revert acc. induction hashes as [| h hashes IH]; intros acc; cbn.
  - split.
    + intros [= <-]. exists []. split; [now rewrite app_nil_r | constructor].
    + intros (fetched & -> & Hall). inversion Hall; subst.
      now rewrite app_nil_r.
  - unfold base.Get, runtimePanic.
    destruct (MemoryPageHash s !! common.Hex h) as [tx |] eqn:Hh.
    + destruct (ethclient.TransactionByHash client tx) as [data | e] eqn:Htx.
      * rewrite IH. split.
        -- intros (fetched & -> & Hall). exists (data :: fetched).
           split; [now rewrite <- app_assoc |].
           constructor; [eauto | exact Hall].
        -- intros (fetched & -> & Hall).
           inversion Hall as [| h' page hs' fetched' (tx' & Hl & Hd) Hall']; subst.
           assert (tx' = tx) as -> by congruence.
           assert (page = data) as -> by congruence.
           exists fetched'. split; [now rewrite <- app_assoc | exact Hall'].
      * split; [discriminate |].
        intros (fetched & -> & Hall).
        inversion Hall as [| h' page hs' fetched' (tx' & Hl & Hd) Hall']; subst.
        congruence.
    + split; [discriminate |].
      intros (fetched & -> & Hall).
      inversion Hall as [| h' page hs' fetched' (tx' & Hl & Hd) Hall']; subst.
      congruence.
Qed.

(** [processMemoryPages] gets to the end of its loop exactly when the
    page hashes of the fact are recorded and every page has its carrying
    transaction recorded and returned by the node; the pages it has then
    are the input data of these transactions, in the order of the page
    hashes. *)
Theorem processMemoryPages_collects_iff (client : ethclient.Client)
    (s : Synchronizer) (fact : string) (pages : list (list byte)) :
  processMemoryPages client s fact = Returned (Ok pages)
  <-> exists hashes,
        GpsVerifier s !! fact = Some hashes
        /\ Forall2 (fun h page =>
                      exists tx, MemoryPageHash s !! common.Hex h = Some tx
                                 /\ ethclient.TransactionByHash client tx = Ok page)
                   hashes pages.
Proof.
  unfold processMemoryPages, base.Get, runtimePanic.
  destruct (GpsVerifier s !! fact) as [hashes |] eqn:Hf.
  - rewrite collectPages_returns_iff. split.
    + intros (fetched & -> & Hall). exists hashes. auto.
    + intros (hashes' & [= <-] & Hall). exists pages. auto.
  - split; [discriminate |]. intros (hashes & [=] & _).
Qed.

Lemma collectPages_does_not_panic (client : ethclient.Client) (s : Synchronizer)
    (hashes : list Z) (acc : list (list byte)) :
  Forall (fun h => is_Some (MemoryPageHash s !! common.Hex h)) hashes ->
  exists result, collectPages client s hashes acc = Returned result.
Proof.
  intros Hall. revert acc. induction Hall as [| h hashes [tx Hh] _ IH]; intros acc; cbn.
  - eauto.
  - unfold base.Get. rewrite Hh.
    destruct (ethclient.TransactionByHash client tx) as [data | e]; [apply IH | eauto].
Qed.

(** When the page hashes of a fact are recorded and every page has its
    carrying transaction recorded, [processMemoryPages] does not panic: it
    gets to the end of its loop or returns at a transaction that the node
    does not return. *)
Theorem processMemoryPages_does_not_panic (client : ethclient.Client)
    (s : Synchronizer) (fact : string) (hashes : list Z) :
  GpsVerifier s !! fact = Some hashes ->
  Forall (fun h => is_Some (MemoryPageHash s !! common.Hex h)) hashes ->
  exists result, processMemoryPages client s fact = Returned result.
Proof.
  intros Hf Hall. unfold processMemoryPages, base.Get. rewrite Hf.
  now apply collectPages_does_not_panic.
Qed.

(** An event that does not carry the page hashes of [f] leaves [f]
    without page hashes. *)
Lemma handleEvent_keeps_unknown (l : eventStruct) (s s' : Synchronizer) (f : string) :
  (forall b, event l !! "factHash" = Some (abi.Bytes32 b) -> common.Hex b <> f) ->
  GpsVerifier s !! f = None ->
  handleEvent l s = Returned s' ->
  GpsVerifier s' !! f = None.
Proof.
  intros Hl Hnone. unfold handleEvent, andThen.
  destruct (onGpsStatementVerifier l s) as [s1 |] eqn:E1; [| discriminate].
  destruct (onMemoryPageFactRegistry l s1) as [s2 |] eqn:E2; [| discriminate].
  intros E3.
  apply onMemoryPageFactRegistry_spec in E2 as (_ & G2 & _).
  apply onStateTransitionFact_spec in E3 as (_ & G3 & _).
  rewrite G3, G2. clear G2 G3.
  revert E1. unfold onGpsStatementVerifier, runtimePanic, base.Add.
  destruct (event l !! "factHash") as [factHash |] eqn:Ef;
    [| intros [= <-]; exact Hnone].
  destruct (event l !! "pagesHashes") as [pagesHashes |];
    [| intros [= <-]; exact Hnone].
  destruct factHash as [b | | |]; try discriminate.
  destruct pagesHashes as [| pages | |]; try discriminate.
  intros [= <-]. cbn. rewrite lookup_insert_ne; [exact Hnone |].
  now apply Hl.
Qed.

(** The poller looks at the head of the queue only: while the page hashes
    of the fact at the head are not recorded, no fact is started, whatever
    is known of the facts behind it, and the queue only grows at its
    end. *)
Theorem poller_waits_for_head_fact (actions : list Action) (r r' : Running)
    (f : string) (rest : list string) :
  facts (sync r) = f :: rest ->
  GpsVerifier (sync r) !! f = None ->
  (forall l b, Deliver l ∈ actions ->
               event l !! "factHash" = Some (abi.Bytes32 b) -> common.Hex b <> f) ->
  run r actions = Returned r' ->
  started r' = started r
  /\ polling r' = polling r
  /\ facts (sync r') = f :: rest ++ concat (map announced actions).
Proof.
  revert r rest. induction actions as [| a actions IH]; intros r rest Hq Hnone Hact; cbn.
  - intros [= <-]. now rewrite app_nil_r.
  - unfold andThen. destruct (step r a) as [r1 |] eqn:E; [| discriminate].
    intros Hrun. destruct a as [l |]; cbn in E.
    + unfold andThen in E.
      destruct (handleEvent l (sync r)) as [s1 |] eqn:Eh; [| discriminate].
      injection E as <-.
      pose proof (handleEvent_spec _ _ _ Eh) as (Hf & _ & _).
      assert (Hn1 : GpsVerifier s1 !! f = None).
      { eapply handleEvent_keeps_unknown; [| exact Hnone | exact Eh].
        intros b. apply Hact. apply elem_of_cons; auto. }
      apply (IH _ (rest ++ announced (Deliver l))) in Hrun as (H1 & H2 & H3).
      * cbn in H1, H2. split; [exact H1 |]. split; [exact H2 |].
        rewrite H3. now rewrite <- app_assoc.
      * cbn. now rewrite Hf, Hq.
      * exact Hn1.
      * intros l' b Hin. apply Hact. apply elem_of_cons; auto.
    + injection E as <-.
      assert (Ht : tick r = r).
      { unfold tick. destruct (polling r); [| reflexivity].
        rewrite Hq. unfold base.Exist. rewrite Hnone.
        case_bool_decide as Hex; [| reflexivity].
        now destruct Hex. }
      rewrite Ht in Hrun.
      apply (IH _ rest) in Hrun; auto.
      intros l' b Hin. apply Hact. apply elem_of_cons; auto.
Qed.

End FactResolutionFurther.

(** ** The facts of the state contract *)

Section FetchStarknetFactProperties.

Import starknet Synchronizer.

Variable loadContract : Res abi.ABI.
Variable MarshalJSON : types.Log -> Res (list byte).
Variable starknetAddress : Z.

(** While every query fails the loop makes no progress. *)
Lemma factLoop_all_fail (ethereumClient : nat -> ethclient.Client)
    (starknetAbi : abi.ABI) (latest i : Z) :
  i < latest ->
  (forall n q, exists e, ethclient.FilterLogs (ethereumClient n) q = Err e) ->
  forall (fuel calls : nat) (fact : list Facts.factChan),
    Facts.factLoop ethereumClient MarshalJSON starknetAddress starknetAbi
                   fuel calls latest i fact = None.
Proof.
  intros Hi Hfail. induction fuel as [| fuel IH]; intros calls fact;
    cbn [Facts.factLoop]; [reflexivity |].
  rewrite (proj2 (Z.ltb_lt i latest)) by exact Hi.
  destruct (Hfail calls (Facts.factQuery starknetAddress i)) as [e ->].
  apply IH.
Qed.

(** A window whose query fails is queried again at once, and the loop has
    no other way out: on a node that answers no query for logs,
    [FetchStarknetFact] never returns when there is a block to fetch. *)
Theorem FetchStarknetFact_retries_forever
    (ethereumClient : nat -> ethclient.Client)
    (starknetAbi : abi.ABI) (latest : Z) :
  ethclient.BlockNumber (ethereumClient 0%nat) = Ok latest ->
  loadContract = Ok starknetAbi ->
  uint64 (initialBlockForStarknetContract (ethereumClient 0%nat)) < latest ->
  (forall n q, exists e, ethclient.FilterLogs (ethereumClient n) q = Err e) ->
  forall fuel,
    Facts.FetchStarknetFact ethereumClient loadContract MarshalJSON
                            starknetAddress fuel = None.
Proof.
  intros Hb Hl Hi Hfail fuel. unfold Facts.FetchStarknetFact.
  rewrite Hb, Hl. now apply factLoop_all_fail.
Qed.

(** The loop depends on the answers of the node from the current call
    on. *)
Lemma factLoop_shift (c1 c2 : nat -> ethclient.Client) (k : nat)
    (starknetAbi : abi.ABI) (latest : Z) :
  (forall n, c1 (k + n)%nat = c2 n) ->
  forall (fuel calls : nat) (i : Z) (fact : list Facts.factChan),
    Facts.factLoop c1 MarshalJSON starknetAddress starknetAbi
                   fuel (k + calls) latest i fact
    = Facts.factLoop c2 MarshalJSON starknetAddress starknetAbi
                     fuel calls latest i fact.
Proof.
  intros Hc. induction fuel as [| fuel IH]; intros calls i fact;
    cbn [Facts.factLoop]; [reflexivity |].
  destruct (i <? latest); [| reflexivity].
  rewrite Hc. replace (S (k + calls)) with (k + S calls)%nat by lia.
  destruct (ethclient.FilterLogs (c2 calls) _) as [logs | e]; [| apply IH].
  destruct (Facts.sendFacts _ _ _ _) as [[fact' [err |]] | entry];
    try reflexivity.
  apply IH.
Qed.

(** The refused queries cost one turn of the loop each and nothing
    else. *)
Lemma factLoop_refused (client : ethclient.Client) (starknetAbi : abi.ABI)
    (latest i : Z) (fact : list Facts.factChan) (fuel : nat) :
  i < latest ->
  forall (d calls down : nat),
    (calls + d = down)%nat ->
    Facts.factLoop (Facts.recovering down client) MarshalJSON starknetAddress
                   starknetAbi (d + fuel) calls latest i fact
    = Facts.factLoop (Facts.recovering down client) MarshalJSON starknetAddress
                     starknetAbi fuel down latest i fact.
Proof.
  intros Hi. induction d as [| d IH]; intros calls down Hd.
  - cbn [Nat.add]. replace calls with down by lia. reflexivity.
  - cbn [Nat.add Facts.factLoop].
    rewrite (proj2 (Z.ltb_lt i latest)) by exact Hi.
    unfold Facts.recovering at 1.
    rewrite (proj2 (Nat.ltb_lt calls down)) by lia.
    cbn [ethclient.FilterLogs]. apply IH. lia.
Qed.

(** Refused queries leave no trace: what [FetchStarknetFact] does on a
    node that answers, it does on a node that refuses the first [down]
    queries for logs, [down] turns of the loop later. *)
Theorem FetchStarknetFact_recovers (client : ethclient.Client) (down fuel : nat)
    (r : Outcome (list Facts.factChan * option error)) :
  Facts.FetchStarknetFact (fun _ => client) loadContract MarshalJSON
                          starknetAddress fuel = Some r ->
  Facts.FetchStarknetFact (Facts.recovering down client) loadContract MarshalJSON
                          starknetAddress (down + fuel) = Some r.
Proof.
  unfold Facts.FetchStarknetFact.
  assert (Hb : ethclient.BlockNumber (Facts.recovering down client 0)
               = ethclient.BlockNumber client).
  { unfold Facts.recovering. now destruct (0 <? down)%nat. }
  assert (Hc : initialBlockForStarknetContract (Facts.recovering down client 0)
               = initialBlockForStarknetContract client).
  { unfold initialBlockForStarknetContract, Facts.recovering.
    now destruct (0 <? down)%nat. }
  rewrite Hb, Hc.
  destruct (ethclient.BlockNumber client) as [latest | e]; [| trivial].
  destruct loadContract as [starknetAbi | e]; [| trivial].
  set (i := uint64 (initialBlockForStarknetContract client)).
  intros Hrun.
  destruct (Z.ltb_spec i latest) as [Hi | Hi].
  - rewrite (factLoop_refused client starknetAbi latest i [] fuel Hi down 0 down)
      by lia.
    rewrite <- (Nat.add_0_r down) at 2.
    rewrite (factLoop_shift (Facts.recovering down client) (fun _ => client) down).
    + exact Hrun.
    + intros n. unfold Facts.recovering.
      now rewrite (proj2 (Nat.ltb_ge (down + n) down)) by lia.
  - destruct fuel as [| fuel]; [discriminate |].
    replace (down + S fuel)%nat with (S (down + fuel)) by lia.
    cbn [Facts.factLoop] in *.
    rewrite (proj2 (Z.ltb_ge i latest)) in * by exact Hi.
    exact Hrun.
Qed.

End FetchStarknetFactProperties.

(** ** State updates of the feeder gateway *)

Section StateDiffProperties.

Lemma foldl_snoc_map {A B : Type} (f : A -> B) (l : list A) (acc : list B) :
  foldl (fun acc v => acc ++ [f v]) acc l = acc ++ map f l.
Proof.
  revert acc. induction l as [| x l IH]; intros acc; cbn.
  - now rewrite app_nil_r.
  - rewrite IH. now rewrite <- app_assoc.
Qed.

Lemma kvsOf_map (keyVals : list feeder.KV) :
  StateDiffs.kvsOf keyVals
  = map (fun kv => {| StateDiffs.Key := feeder.Key kv;
                      StateDiffs.Value := feeder.Value kv |}) keyVals.
Proof. unfold StateDiffs.kvsOf. now rewrite foldl_snoc_map. Qed.

(** Writing the entries of a map, in any order, into another map. *)
Lemma foldl_insert_lookup {A B : Type} (g : A -> B)
    (visited : list (string * A)) (acc : gmap string B) (k : string) :
  NoDup visited.*1 ->
  foldl (fun acc entry => let '(key, v) := entry in <[ key := g v ]> acc)
        acc visited !! k
  = match (list_to_map visited : gmap string A) !! k with
    | Some v => Some (g v)
    | None => acc !! k
    end.
Proof.
  revert acc. induction visited as [| [a v] visited IH]; intros acc Hnd; cbn.
  - now rewrite lookup_empty.
  - apply NoDup_cons in Hnd as [Hnotin Hnd]. rewrite IH by exact Hnd.
    destruct (decide (a = k)) as [-> | Hne].
    + rewrite lookup_insert_eq.
      rewrite (proj1 (not_elem_of_list_to_map visited k)) by exact Hnotin.
      now rewrite lookup_insert_eq.
    + rewrite !lookup_insert_ne by exact Hne. reflexivity.
Qed.

(** The conversion loses nothing and does not depend on the order in
    which the map of storage diffs is visited: the deployed contracts are
    the ones of the update, in their order, and every address has the
    key-value pairs the update has for it, in their order. *)
Theorem stateUpdateResponseToStateDiff_keeps_everything
    (visited : list (string * list feeder.KV))
    (update : feeder.StateUpdateResponse) :
  visited ≡ₚ map_to_list (feeder.StorageDiffs (feeder.stateDiff update)) ->
  StateDiffs.DeployedContracts
    (StateDiffs.stateUpdateResponseToStateDiff visited update)
  = map (fun v => {| StateDiffs.Address := feeder.Address v;
                     StateDiffs.ContractHash := feeder.ContractHash v |})
        (feeder.DeployedContracts (feeder.stateDiff update))
  /\ forall address,
       StateDiffs.StorageDiffs
         (StateDiffs.stateUpdateResponseToStateDiff visited update) !! address
       = map (fun kv => {| StateDiffs.Key := feeder.Key kv;
                           StateDiffs.Value := feeder.Value kv |})
         <$> feeder.StorageDiffs (feeder.stateDiff update) !! address.
Proof.
  intros Hperm. unfold StateDiffs.stateUpdateResponseToStateDiff.
  cbn [StateDiffs.DeployedContracts StateDiffs.StorageDiffs].
  split; [now rewrite foldl_snoc_map |].
  intros address.
  assert (Hnd : NoDup visited.*1).
  { rewrite Hperm. apply NoDup_fst_map_to_list. }
  rewrite (foldl_insert_lookup StateDiffs.kvsOf) by exact Hnd.
  assert (Hm : (list_to_map visited : gmap string (list feeder.KV))
               = feeder.StorageDiffs (feeder.stateDiff update)).
  { rewrite (list_to_map_proper visited _ Hnd Hperm).
    apply list_to_map_to_list. }
  rewrite Hm, lookup_empty.
  destruct (feeder.StorageDiffs (feeder.stateDiff update) !! address) as [kvs |];
    cbn; [now rewrite kvsOf_map | reflexivity].
Qed.

End StateDiffProperties.

(** ** Catching up with the feeder gateway *)

Section FastSyncProperties.

Variable feederGatewayClient : feeder.Client.

Lemma catchUp_step (fuel : nat) (b : Z) (h : string)
    (started : list FastSync.task) :
  FastSync.catchUp feederGatewayClient (S fuel) b h started
  = let '(newValueForIterator, newBlockHash, go) :=
      FastSync.updateStateForOneBlock feederGatewayClient b h in
    if String.eqb newBlockHash h
    then Some (b, h, started ++ option_list go)
    else FastSync.catchUp feederGatewayClient fuel newValueForIterator
                          newBlockHash (started ++ option_list go).
Proof. reflexivity. Qed.

(** The first loop of [fastSync] from block [b], when the gateway has no
    answer for block [b + n]. *)
Lemma catchUp_spec (n : nat) :
  forall (b : Z) (h : string) (started : list FastSync.task) (e : error),
    - 2 ^ 63 <= b -> b + Z.of_nat n < 2 ^ 63 ->
    feeder.GetStateUpdate feederGatewayClient ""
                          (strconv.Itoa (b + Z.of_nat n)) = Err e ->
    exists b' h' more,
      FastSync.catchUp feederGatewayClient (S n) b h started
      = Some (b', h', started ++ more)
      /\ b <= b' <= b + Z.of_nat n
      /\ map FastSync.blockNumber more = seqZ b (b' - b)
      /\ Forall (fun t =>
                   feeder.GetStateUpdate feederGatewayClient ""
                                         (strconv.Itoa (FastSync.blockNumber t))
                   = Ok (FastSync.update t)) more
      /\ h' = from_option (fun t => feeder.BlockHash (FastSync.update t)) h
                          (last more)
      /\ match feeder.GetStateUpdate feederGatewayClient "" (strconv.Itoa b') with
         | Err _ => True
         | Ok update => feeder.BlockHash update = h'
         end.
Proof.
  induction n as [| n IH]; intros b h started e Hlo Hhi Hend.
  - rewrite Z.add_0_r in Hend.
    rewrite catchUp_step. unfold FastSync.updateStateForOneBlock.
    rewrite Hend, String.eqb_refl. simpl (option_list _).
    exists b, h, []. rewrite Hend.
    repeat split; try lia; try constructor.
    replace (b - b) with 0 by lia. reflexivity.
  - rewrite catchUp_step. unfold FastSync.updateStateForOneBlock.
    destruct (feeder.GetStateUpdate feederGatewayClient "" (strconv.Itoa b))
      as [u | e'] eqn:Eg.
    + destruct (String.eqb h (feeder.BlockHash u)) eqn:Eh.
      * rewrite String.eqb_refl. simpl (option_list _).
        exists b, h, []. rewrite Eg.
        apply String.eqb_eq in Eh.
        repeat split; try lia; try constructor; auto.
        replace (b - b) with 0 by lia. reflexivity.
      * rewrite String.eqb_sym, Eh. simpl (option_list _).
        assert (Hb1 : int64 (b + 1) = b + 1).
        { unfold int64. rewrite Z.mod_small by lia. lia. }
        rewrite Hb1.
        destruct (IH (b + 1) (feeder.BlockHash u)
                     (started ++ [ {| FastSync.blockNumber := b;
                                      FastSync.update := u |} ]) e)
          as (b' & h' & more & Hrun & Hb & Hseq & Hall & Hh & Hstop);
          [lia | lia | now replace (b + 1 + Z.of_nat n) with (b + Z.of_nat (S n)) by lia |].
        exists b', h',
          ({| FastSync.blockNumber := b; FastSync.update := u |} :: more).
        split; [rewrite Hrun; now rewrite <- app_assoc |].
        split; [lia |].
        split.
        { cbn [map FastSync.blockNumber].
          rewrite (seqZ_cons b (b' - b)) by lia.
          rewrite Hseq. f_equal. f_equal; lia. }
        split; [constructor; [exact Eg | exact Hall] |].
        split; [| exact Hstop].
        rewrite Hh. destruct more as [| t more]; [reflexivity |].
        rewrite last_cons_cons.
        destruct (last (t :: more)) eqn:El; [reflexivity |].
        apply last_None in El. discriminate El.
    + rewrite String.eqb_refl. simpl (option_list _).
      exists b, h, []. rewrite Eg.
      repeat split; try lia; try constructor.
      replace (b - b) with 0 by lia. reflexivity.
Qed.

Context {DB : Type} `{D : db.Databaser DB}.

(** [fastSync] catches up from the block of the checkpoint: when the
    gateway has no answer for a block [n] blocks further, the first loop
    ends within [n + 1] turns; the goroutines it has started are for
    consecutive blocks from the one of the checkpoint on, each with the
    update the gateway gives for its block; and it has stopped at a block
    for which the gateway fails or gives the hash of the block before. *)
Theorem fastSync_catches_up_in_order (database : DB) (b : Z) (n : nat) (e : error) :
  Synchronizer.latestBlockQueried database = Ok b ->
  b + Z.of_nat n < 2 ^ 63 ->
  feeder.GetStateUpdate feederGatewayClient ""
                        (strconv.Itoa (b + Z.of_nat n)) = Err e ->
  exists b' h' started,
    FastSync.fastSync feederGatewayClient (S n) database
    = Ok (Some (b', h', started))
    /\ b <= b' <= b + Z.of_nat n
    /\ map FastSync.blockNumber started = seqZ b (b' - b)
    /\ Forall (fun t =>
                 feeder.GetStateUpdate feederGatewayClient ""
                                       (strconv.Itoa (FastSync.blockNumber t))
                 = Ok (FastSync.update t)) started
    /\ h' = from_option (fun t => feeder.BlockHash (FastSync.update t)) ""
                        (last started)
    /\ match feeder.GetStateUpdate feederGatewayClient "" (strconv.Itoa b') with
       | Err _ => True
       | Ok update => feeder.BlockHash update = h'
       end.
Proof.
  intros Hq Hhi Hend. unfold FastSync.fastSync. rewrite Hq.
  assert (Hlo : - 2 ^ 63 <= b).
  { revert Hq. unfold Synchronizer.latestBlockQueried.
    destruct (db.Get database starknet.latestBlockSynced) as [[get |] | e'];
      [| intros [= <-]; lia | discriminate].
    destruct (ReadUint64 get) as [ret | e']; [| discriminate].
    intros [= <-]. pose proof (int64_range ret) as Hr. unfold is_int64 in Hr. lia. }
  destruct (catchUp_spec n b "" [] e Hlo Hhi Hend)
    as (b' & h' & more & Hrun & Hrest).
  exists b', h', more. split; [now rewrite Hrun | exact Hrest].
Qed.

End FastSyncProperties.

(** ** The properties on the examples *)

Lemma poller_waits_for_head_fact_witness :
  Synchronizer.started Examples.headStillUnknown
  = Synchronizer.started Examples.headUnknown
  /\ Synchronizer.polling Examples.headStillUnknown
     = Synchronizer.polling Examples.headUnknown
  /\ Synchronizer.facts (Synchronizer.sync Examples.headStillUnknown)
     = common.Hex Scenario.fact7
       :: [common.Hex Scenario.fact8]
          ++ concat (map Synchronizer.announced Examples.laterActions).
Proof.
  apply (poller_waits_for_head_fact Examples.laterActions Examples.headUnknown
           Examples.headStillUnknown).
  - reflexivity.
  - vm_compute. reflexivity.
  - intros l b Hin Hev. unfold Examples.laterActions in Hin.
    repeat (apply elem_of_cons in Hin as [Heq | Hin]; [try discriminate Heq |]).
    + injection Heq as ->. vm_compute in Hev. discriminate Hev.
    + injection Heq as ->. vm_compute in Hev. injection Hev as <-.
      vm_compute. discriminate.
    + injection Heq as ->. vm_compute in Hev. discriminate Hev.
    + apply elem_of_nil in Hin. destruct Hin.
  - vm_compute. reflexivity.
Defined.

Lemma FetchStarknetFact_retries_forever_witness :
  Facts.FetchStarknetFact (fun _ => Backfill.offline 5 5870000)
                          (Ok Scenario.starknetAbi) Examples.MarshalJSON
                          Scenario.starknetAddress 1000 = None.
Proof.
  apply (FetchStarknetFact_retries_forever
           (Ok Scenario.starknetAbi) Examples.MarshalJSON Scenario.starknetAddress
           (fun _ => Backfill.offline 5 5870000) Scenario.starknetAbi 5870000).
  - reflexivity.
  - reflexivity.
  - vm_compute. reflexivity.
  - intros n q. eexists. reflexivity.
Defined.

Lemma FetchStarknetFact_recovers_witness :
  Facts.FetchStarknetFact (Facts.recovering 4 Examples.node)
                          (Ok Scenario.starknetAbi) Examples.MarshalJSON
                          Scenario.starknetAddress (4 + 3)
  = Some (Returned ([ {| Facts.block := 5863000; Facts.fact := 7 |};
                      {| Facts.block := 5863000; Facts.fact := 7 |} ], None)).
Proof.
  apply (FetchStarknetFact_recovers
           (Ok Scenario.starknetAbi) Examples.MarshalJSON Scenario.starknetAddress
           Examples.node 4 3).
  vm_compute. reflexivity.
Defined.

Lemma stateUpdateResponseToStateDiff_keeps_everything_witness :
  StateDiffs.DeployedContracts
    (StateDiffs.stateUpdateResponseToStateDiff
       (reverse (map_to_list (feeder.StorageDiffs
                                (feeder.stateDiff (Examples.blockWith "0x47c3")))))
       (Examples.blockWith "0x47c3"))
  = map (fun v => {| StateDiffs.Address := feeder.Address v;
                     StateDiffs.ContractHash := feeder.ContractHash v |})
        (feeder.DeployedContracts (feeder.stateDiff (Examples.blockWith "0x47c3")))
  /\ forall address,
       StateDiffs.StorageDiffs
         (StateDiffs.stateUpdateResponseToStateDiff
            (reverse (map_to_list (feeder.StorageDiffs
                                     (feeder.stateDiff (Examples.blockWith "0x47c3")))))
            (Examples.blockWith "0x47c3")) !! address
       = map (fun kv => {| StateDiffs.Key := feeder.Key kv;
                           StateDiffs.Value := feeder.Value kv |})
         <$> feeder.StorageDiffs (feeder.stateDiff (Examples.blockWith "0x47c3"))
             !! address.
Proof.
  apply (stateUpdateResponseToStateDiff_keeps_everything
           (reverse (map_to_list (feeder.StorageDiffs
                                    (feeder.stateDiff (Examples.blockWith "0x47c3")))))
           (Examples.blockWith "0x47c3")).
  apply reverse_Permutation.
Defined.

Lemma fastSync_catches_up_in_order_witness :
  exists b' h' started,
    FastSync.fastSync (Examples.gateway Examples.threeBlocks) 4 (∅ : db.MemDB)
    = Ok (Some (b', h', started))
    /\ 0 <= b' <= 0 + Z.of_nat 3
    /\ map FastSync.blockNumber started = seqZ 0 (b' - 0)
    /\ Forall (fun t =>
                 feeder.GetStateUpdate (Examples.gateway Examples.threeBlocks) ""
                                       (strconv.Itoa (FastSync.blockNumber t))
                 = Ok (FastSync.update t)) started
    /\ h' = from_option (fun t => feeder.BlockHash (FastSync.update t)) ""
                        (last started)
    /\ match feeder.GetStateUpdate (Examples.gateway Examples.threeBlocks) ""
                                   (strconv.Itoa b') with
       | Err _ => True
       | Ok update => feeder.BlockHash update = h'
       end.
Proof.
  apply (fastSync_catches_up_in_order (Examples.gateway Examples.threeBlocks)
           (∅ : db.MemDB) 0 3 "block not found").
  - vm_compute. reflexivity.
  - lia.
  - vm_compute. reflexivity.
Defined.

Lemma processMemoryPages_does_not_panic_witness :
  exists result,
    Synchronizer.processMemoryPages Examples.node
      (Synchronizer.sync Examples.headUnknown) (common.Hex Scenario.fact8)
    = Returned result.
Proof.
  apply (processMemoryPages_does_not_panic Examples.node
           (Synchronizer.sync Examples.headUnknown) (common.Hex Scenario.fact8)
           [Scenario.page9]).
  - vm_compute. reflexivity.
  - constructor; [| constructor]. apply is_Some_alt. vm_compute. exact I.
Defined.
